(** * TacoCat: the scoring bot's rate limiter, score store, message composer
      and message-event dispatcher, embedded in Rocq.

    Sources embedded here:
    - the points module that [events.js] requires as [./points] (tables
      [scores] and [usertracker]; [updateScore], [getScore],
      [checkCanUpdate]);
    - [src/messages.js] (weighted message pools, [getRandomMessage]);
    - [src/events.js] ([handleSelfPlus], [handlePlusMinus], [reset],
      [handlers.message]).

    Not among the sources, and therefore parameters or modelled from the
    specification where they are declared: [src/slack.js],
    [src/operations.js], [src/helpers.js], and the revision of the points
    module with the two score columns and [resetTempScores].

    Conventions of the embedding:
    - an [async] function is a computation in the monad [M] over the state
      of the running process ([world]); a rejected promise and a thrown
      exception are both [Thrown];
    - [console.log] diagnostics are not part of the state;
    - [CREATE EXTENSION/TABLE IF NOT EXISTS] is the identity on a table that
      is a finite map (an absent table is the empty map);
    - item and user names are spliced into the SQL text between quotes: the
      embedding covers names that contain no quote character. *)

From Stdlib Require Import ZArith QArith Qround String Ascii List Lia DecimalString.
From stdpp Require Import base option list gmap strings sorting.

Local Open Scope string_scope.
Local Open Scope Z_scope.

(** ** Outcomes of JavaScript calls *)

Inductive error : Type :=
  | TypeError (what : string)   (* property read on [undefined] *)
  | PgError (what : string)     (* statement rejected by Postgres *)
  | JsError (what : string).    (* [throw Error( ... )] *)

Inductive outcome (A : Type) : Type :=
  | Returned (a : A)
  | Thrown (e : error).
Arguments Returned {A} a.
Arguments Thrown {A} e.

Definition is_returned {A} (o : outcome A) : bool :=
  match o with Returned _ => true | Thrown _ => false end.

(** ** The chat gateway

    Modelled from the spec: [src/slack.js] is not among the sources; the
    gateway is the collaborator of section 6, and a call to it is recorded in
    the order it is made. *)
Inductive slack_call : Type :=
  | sendMessage (text channel : string)
  | sendThreadMessage (text channel ts : string)
  | sendEphemeral (text channel user : string).

(** The symbol of an operation on a score, as it is spliced into the SQL
    text: ['+'] or ['-']. *)
Inductive symbol : Type := Plus | Minus.

Definition signed (operation : symbol) (amount : Z) : Z :=
  match operation with Plus => amount | Minus => - amount end.

(** A call [handlePlusMinus( item, operation, quantity, channel, userInit, ts )]
    that has been started and not awaited: it is suspended at its first
    [await] and goes on after the function that started it has returned. *)
Inductive task : Type :=
  | handlePlusMinus_call (item : string) (operation : symbol) (quantity : Z)
                         (channel userInit ts : string).

Definition task_operation (t : task) : symbol :=
  match t with handlePlusMinus_call _ operation _ _ _ _ => operation end.

(** ** State of the running process *)

Record world : Type := World {
  (** [process.env.MAX_OPS] as the number [>=] coerces it to; [None] when the
      variable is unset or not numeric (the comparison is then with [NaN]). *)
  MAX_OPS : option Z;
  (** successive values of [Math.floor(new Date() / 1000)] *)
  clock : nat -> Z;
  (** successive values of [Math.random()] *)
  entropy : nat -> Q;
  (** table [scores (item CITEXT PRIMARY KEY, score INTEGER)] *)
  scores : gmap string Z;
  (** table [usertracker (theuser CITEXT PRIMARY KEY, operations INTEGER,
      ts INTEGER)]: [theuser |-> (operations, ts)] *)
  usertracker : gmap string (Z * Z);
  (** the score table with its two score columns, [item |-> (total, temp)],
      as [events.js] reads it; see [ScoreStore] *)
  ledger : gmap string (Z * Z);
  (** calls made to the chat gateway, oldest first *)
  outbox : list slack_call;
  (** calls started and not awaited, oldest first *)
  pending : list task
}.

Definition set_clock (x : nat -> Z) (w : world) : world :=
  World (MAX_OPS w) x (entropy w) (scores w) (usertracker w) (ledger w) (outbox w) (pending w).
Definition set_entropy (x : nat -> Q) (w : world) : world :=
  World (MAX_OPS w) (clock w) x (scores w) (usertracker w) (ledger w) (outbox w) (pending w).
Definition set_scores (x : gmap string Z) (w : world) : world :=
  World (MAX_OPS w) (clock w) (entropy w) x (usertracker w) (ledger w) (outbox w) (pending w).
Definition set_usertracker (x : gmap string (Z * Z)) (w : world) : world :=
  World (MAX_OPS w) (clock w) (entropy w) (scores w) x (ledger w) (outbox w) (pending w).
Definition set_ledger (x : gmap string (Z * Z)) (w : world) : world :=
  World (MAX_OPS w) (clock w) (entropy w) (scores w) (usertracker w) x (outbox w) (pending w).
Definition set_outbox (x : list slack_call) (w : world) : world :=
  World (MAX_OPS w) (clock w) (entropy w) (scores w) (usertracker w) (ledger w) x (pending w).
Definition set_pending (x : list task) (w : world) : world :=
  World (MAX_OPS w) (clock w) (entropy w) (scores w) (usertracker w) (ledger w) (outbox w) x.

(** The clock stands still at [now]: every [new Date()] of the evaluations
    that follow reads the same second. *)
Definition at_time (now : Z) (w : world) : world := set_clock (fun _ => now) w.

(** ** The monad of effectful calls *)

Definition M (A : Type) : Type := world -> outcome A * world.

Definition ret {A} (a : A) : M A := fun w => (Returned a, w).
Definition throw {A} (e : error) : M A := fun w => (Thrown e, w).
Definition bind {A B} (m : M A) (k : A -> M B) : M B :=
  fun w => match m w with
           | (Returned a, w') => k a w'
           | (Thrown e, w') => (Thrown e, w')
           end.
Definition gets {A} (f : world -> A) : M A := fun w => (Returned (f w), w).
Definition modify (f : world -> world) : M unit := fun w => (Returned tt, f w).

Declare Scope js_scope.
Delimit Scope js_scope with js.
Notation "'let*' x ':=' m 'in' k" := (bind m (fun x => k))
  (at level 10, x name, m at level 100, k at level 200) : js_scope.
Notation "'do' m 'then' k" := (bind m (fun _ => k))
  (at level 10, m at level 100, k at level 200) : js_scope.
Local Open Scope js_scope.

(** [Math.floor(new Date() / 1000)]: the next reading of the clock. *)
Definition Date_now : M Z :=
  fun w => (Returned (clock w O), set_clock (fun n => clock w (S n)) w).

(** [Math.random()]: the next draw. *)
Definition Math_random : M Q :=
  fun w => (Returned (entropy w O), set_entropy (fun n => entropy w (S n)) w).

(** [Math.floor(r * n)] for a draw [r] and an integer [n]; the product is
    taken exactly. *)
Definition floor_times (r : Q) (n : Z) : Z := Qfloor (r * inject_Z n).

(** A draw of [Math.random()] lies in [0, 1). *)
Definition unit_draw (r : Q) : Prop := (0 <= r)%Q /\ (r < 1)%Q.

(** ** Postgres column types *)

(** [CITEXT]: keys compare without regard to letter case (here: the case of
    the ASCII letters). *)
Definition lower (c : ascii) : ascii :=
  let n := nat_of_ascii c in
  if ((65 <=? n) && (n <=? 90))%nat then ascii_of_nat (n + 32) else c.

Fixpoint citext (s : string) : string :=
  match s with
  | EmptyString => EmptyString
  | String c s' => String (lower c) (citext s')
  end.

(** [INTEGER]: a value outside the 32-bit signed range is refused. *)
Definition int4 (z : Z) : bool := (-2147483648 <=? z) && (z <=? 2147483647).

Definition out_of_range : error := PgError "integer out of range".

(** [INSERT INTO t VALUES (key, row) ON CONFLICT (key) DO UPDATE SET ...]:
    the proposed row is stored when the key is free, the existing row is
    rewritten by [on_conflict] otherwise. [fits] is the range check of the
    row's INTEGER columns. *)
Definition upsert {V} (fits : V -> bool) (key : string) (row : V)
    (on_conflict : V -> V) (t : gmap string V) : outcome (gmap string V) :=
  if negb (fits row) then Thrown out_of_range
  else match t !! citext key with
       | None => Returned (<[citext key := row]> t)
       | Some old =>
           if fits (on_conflict old)
           then Returned (<[citext key := on_conflict old]> t)
           else Thrown out_of_range
       end.

(** [SELECT ... FROM t WHERE key = '...']: the rows found, at most one since
    the key is the primary key. *)
Definition select {V} (key : string) (t : gmap string V) : list V :=
  match t !! citext key with
  | Some row => [row]
  | None => []
  end.

(** [rows[0]]: reading a column of the first row throws when there is none. *)
Definition first_row {V} (rows : list V) (column : string) : M V :=
  match rows with
  | row :: _ => ret row
  | [] => throw (TypeError ("Cannot read property '" +:+ column +:+ "' of undefined"))
  end.

(** [list[ i ]] for a number [i]; [undefined] outside the array. *)
Definition at_index {A} (l : list A) (i : Z) : option A :=
  if (i <? 0) then None else l !! Z.to_nat i.

(** ** The points module *)

Module Points.

Definition fits_score (score : Z) : bool := int4 score.
Definition fits_tracker (row : Z * Z) : bool := int4 (fst row) && int4 (snd row).

Definition query_scores (f : gmap string Z -> outcome (gmap string Z)) : M unit :=
  fun w => match f (scores w) with
           | Returned t => (Returned tt, set_scores t w)
           | Thrown e => (Thrown e, w)
           end.

Definition query_usertracker
    (f : gmap string (Z * Z) -> outcome (gmap string (Z * Z))) : M unit :=
  fun w => match f (usertracker w) with
           | Returned t => (Returned tt, set_usertracker t w)
           | Thrown e => (Thrown e, w)
           end.

(** [updateScore( item, operation )]: upsert [score = score operation 1]
    (a new item starts from [operation 1]), then read the score back. *)
Definition updateScore (item : string) (operation : symbol) : M Z :=
  do query_scores (upsert fits_score item (signed operation 1)
                     (fun score => score + signed operation 1)) then
  let* dbSelect := gets (fun w => select item (scores w)) in
  let* score := first_row dbSelect "score" in
  ret score.

(** [updateScore( item, '+' )] called [n] times, each call after the one
    before has settled. *)
Fixpoint plus_one_times (n : nat) (item : string) (w : world) : world :=
  match n with
  | O => w
  | S n' => plus_one_times n' item (snd (updateScore item Plus w))
  end.

(** [getScore( item, operation )]: read the score; nothing is written. *)
Definition getScore (item : string) (operation : symbol) : M Z :=
  let* dbSelect := gets (fun w => select item (scores w)) in
  let* score := first_row dbSelect "score" in
  ret score.

(** [userOperations >= MAX_OPS], with [MAX_OPS] coerced to a number. *)
Definition reached (userOperations : Z) (max_ops : option Z) : bool :=
  match max_ops with
  | Some m => m <=? userOperations
  | None => false
  end.

(** The zero record written for a user the first SELECT did not find. *)
Definition insert_zero (user : string) : M unit :=
  let* t_values := Date_now in
  let* t_conflict := Date_now in
  query_usertracker
    (upsert fits_tracker user (0, t_values) (fun _ => (0, t_conflict))).

(** The branch taken on the row in hand: deny, count one more operation
    in the running window, or open a new window. *)
Definition decide_and_write (user : string) (row : Z * Z) : M bool :=
  let userOperations := fst row in
  let userTS := snd row in
  let* now := Date_now in
  if (now - userTS <? 3600)
  then
    let* max_ops := gets MAX_OPS in
    if reached userOperations max_ops
    then ret false
    else
      do query_usertracker
           (upsert fits_tracker user (1, userTS)
              (fun old => (userOperations + 1, snd old))) then
      ret true
  else
    let* t_values := Date_now in
    let* t_conflict := Date_now in
    do query_usertracker
         (upsert fits_tracker user (1, t_values)
            (fun _ => (1, t_conflict))) then
    ret true.

(** [checkCanUpdate( user )]: the lookup of the record (created with zero
    operations when there is none), then [decide_and_write]. *)
Definition checkCanUpdate (user : string) : M bool :=
  let* dbSelect := gets (fun w => select user (usertracker w)) in
  let* dbSelect :=
    (if (Z.of_nat (length dbSelect) <? 1)
     then
       do insert_zero user then
       gets (fun w => select user (usertracker w))
     else ret dbSelect) in
  let* row := first_row dbSelect "operations" in
  decide_and_write user row.

(** *** One evaluation between its suspension points

    [checkCanUpdate] gives control back at every [await]. Between two of
    them one statement runs in the database and the JavaScript up to the
    next [await] runs without interruption; the database runs each
    statement as a whole, and no transaction or lock spans two statements.
    A [stage] is the point where an evaluation is suspended, with the rows
    it holds. *)
Inductive stage : Type :=
  | AtSelect                            (* before the first SELECT *)
  | AtInsert                            (* no row found: before the INSERT *)
  | AtReselect                          (* before the second SELECT *)
  | AtWrite (dbSelect : list (Z * Z))   (* rows in hand: before the check
                                           and the statement it leads to *)
  | Settled (result : outcome bool).

Definition step (user : string) (s : stage) (w : world) : stage * world :=
  match s with
  | AtSelect =>
      let dbSelect := select user (usertracker w) in
      (if (Z.of_nat (length dbSelect) <? 1) then AtInsert else AtWrite dbSelect, w)
  | AtInsert =>
      match insert_zero user w with
      | (Returned _, w') => (AtReselect, w')
      | (Thrown e, w') => (Settled (Thrown e), w')
      end
  | AtReselect => (AtWrite (select user (usertracker w)), w)
  | AtWrite dbSelect =>
      let r := (let* row := first_row dbSelect "operations" in
                decide_and_write user row) w in
      (Settled (fst r), snd r)
  | Settled result => (Settled result, w)
  end.

(** An evaluation that no other interrupts: at most four steps. *)
Definition run_alone (user : string) (w : world) : stage * world :=
  let r1 := step user AtSelect w in
  let r2 := step user (fst r1) (snd r1) in
  let r3 := step user (fst r2) (snd r2) in
  step user (fst r3) (snd r3).

(** Two evaluations in flight; the schedule says which one takes the next
    step. *)
Inductive turn : Type := First | Second.

Fixpoint interleave (user1 user2 : string) (schedule : list turn)
    (s1 s2 : stage) (w : world) : stage * stage * world :=
  match schedule with
  | [] => (s1, s2, w)
  | First :: schedule' =>
      let r := step user1 s1 w in
      interleave user1 user2 schedule' (fst r) s2 (snd r)
  | Second :: schedule' =>
      let r := step user2 s2 w in
      interleave user1 user2 schedule' s1 (fst r) (snd r)
  end.

(** *** The other functions of the module *)

(** [ORDER BY score DESC]: a row stands no later than a row of lower
    score. *)
Definition higher (a b : string * Z) : Prop := snd b <= snd a.

#[global] Instance higher_dec a b : Decision (higher a b) :=
  Z_le_dec (snd b) (snd a).


(** The statement of [randomScore] and [reallyRandomScore], whose sign and
    amount are picked from arrays: a pick outside its array is [undefined]
    and makes a text that Postgres refuses. *)
Definition move_score (item : string) (operation : option symbol)
    (amount : option Z) : M Z :=
  match operation, amount with
  | Some operation, Some amount =>
      do query_scores (upsert fits_score item (signed operation amount)
                         (fun score => score + signed operation amount)) then
      let* dbSelect := gets (fun w => select item (scores w)) in
      let* score := first_row dbSelect "score" in
      ret score
  | _, _ => throw (PgError "syntax error")
  end.

(** [randomScore( item, operation )]: the parameter [operation] is
    overwritten by the sign that is drawn. *)
Definition randomScore (item : string) (operation : string) : M Z :=
  let ops := [Plus; Minus; Plus; Plus] in
  let* r := Math_random in
  let operation := at_index ops (floor_times r (Z.of_nat (length ops))) in
  let numbers := [1; 2; 3; 4; 5] in
  let* r := Math_random in
  let amount := at_index numbers (floor_times r (Z.of_nat (length numbers))) in
  move_score item operation amount.


(** [updateScore] called once per symbol of a list, each call after the one
    before has settled. *)
Fixpoint apply_each (operations : list symbol) (item : string) (w : world)
    : world :=
  match operations with
  | [] => w
  | operation :: rest => apply_each rest item (snd (updateScore item operation w))
  end.

(** The signed sum of a list of symbols: pluses minus minuses. *)
Definition balance (operations : list symbol) : Z :=
  fold_right (fun operation total => signed operation 1 + total) 0 operations.

(** [checkCanUpdate] called once per clock value of a list, each call after
    the one before has settled, the clock standing still during a call. *)
Fixpoint evaluations (times : list Z) (user : string) (w : world)
    : list (outcome bool) * world :=
  match times with
  | [] => ([], w)
  | now :: rest =>
      let r := checkCanUpdate user (at_time now w) in
      let rs := evaluations rest user (snd r) in
      (fst r :: fst rs, snd rs)
  end.

(** No record counts more than [m] operations. *)
Definition within_quota (m : Z) (t : gmap string (Z * Z)) : Prop :=
  map_Forall (fun _ row => fst row <= m) t.

End Points.

(** ** The score store with the era score

    Modelled from the spec: the revision of the points module that
    [events.js] calls, with [updateScore( item, operation, quantity )]
    resolving to the pair [[total, temp]] and with [resetTempScores()], is
    not among the sources ([Points.updateScore] keeps the single column
    [score] and moves it by one). The definitions follow section 4.4 of the
    specification. *)
Module ScoreStore.

(** Modelled from the spec: [apply(item, polarity, magnitude)], which
    upserts the record (created with [total = temp = 0] when absent), moves
    both fields by the signed magnitude and returns [(newTotal, newTemp)]. *)
Definition updateScore (item : string) (operation : symbol) (quantity : Z)
    : M (Z * Z) :=
  fun w =>
    let old := default (0, 0) (ledger w !! citext item) in
    let new := (fst old + signed operation quantity,
                snd old + signed operation quantity) in
    (Returned new, set_ledger (<[citext item := new]> (ledger w)) w).

(** Modelled from the spec: [resetEra()], which sets [temp = 0] for every
    record and leaves [total] untouched. *)
Definition resetTempScores : M unit :=
  modify (fun w => set_ledger ((fun r : Z * Z => (fst r, 0)) <$> ledger w) w).

(** The record of an item, [(total, temp)]; an item never scored reads as
    [(0, 0)]. *)
Definition record_of (item : string) (w : world) : Z * Z :=
  default (0, 0) (ledger w !! citext item).

(** [(+1)] applied [n] times in sequence. *)
Fixpoint plus_one_times (n : nat) (item : string) (w : world) : world :=
  match n with
  | O => w
  | S n' => plus_one_times n' item (snd (updateScore item Plus 1 w))
  end.

End ScoreStore.

(** ** Collaborators of the composer and the dispatcher *)

(** Modelled from the spec: [src/operations.js] is not among the sources.
    The registry binds each kind of operation to a name, fixed when the
    process starts; [getOperationName] gives the name of a symbol. *)
Class Operations : Type := {
  PLUS : string;
  MINUS : string;
  EQUAL : string;
  SELF : string;
  RANDOM : string;
  REALLYRANDOM : string
}.

(** Modelled from the spec: [getOperationName] of the missing
    [src/operations.js], which gives the name of the kind a symbol stands
    for. *)
Definition getOperationName `{Operations} (operation : symbol) : string :=
  match operation with Plus => PLUS | Minus => MINUS end.

(** The six kinds have six names. *)
Definition registry_distinct `{Operations} : Prop :=
  NoDup [PLUS; MINUS; EQUAL; SELF; RANDOM; REALLYRANDOM].

(** One unit of work extracted from a message text; a field the extraction
    left out is [None] ([undefined]). *)
Record entry : Type := Entry {
  item : option string;
  quantity : option Z;
  cats : option Z
}.

(** [src/helpers.js] is not among the sources: its functions are
    parameters. *)
Class Helpers : Type := {
  isPlural : Z -> bool;
  maybeLinkItem : string -> string;
  extractPlusMinusEventData : string -> list entry
}.

(** ** JavaScript strings *)

Definition newline : string := String (ascii_of_nat 10) EmptyString.

(** [String(n)] for an integer. *)
Definition string_of_Z (n : Z) : string := NilZero.string_of_int (Z.to_int n).

(** The replacement text of [replace]: [$$], [$&], [$`] and [$'] stand for
    a dollar, the match, the text before it and the text after it. *)
Fixpoint substitution (matched before after replacement : string) : string :=
  match replacement with
  | EmptyString => EmptyString
  | String c tail =>
      if Ascii.eqb c "$"
      then match tail with
           | EmptyString => String c EmptyString
           | String d tail' =>
               if Ascii.eqb d "$" then String "$" (substitution matched before after tail')
               else if Ascii.eqb d "&" then matched +:+ substitution matched before after tail'
               else if Ascii.eqb d "`" then before +:+ substitution matched before after tail'
               else if Ascii.eqb d "'" then after +:+ substitution matched before after tail'
               else String c (substitution matched before after tail)
           end
      else String c (substitution matched before after tail)
  end.

(** [text.replace( pattern, replacement )] for a string pattern: the first
    occurrence only. *)
Definition replace (pattern replacement text : string) : string :=
  match index 0 pattern text with
  | None => text
  | Some i =>
      let before := substring 0 i text in
      let after := substring (i + String.length pattern)
                     (String.length text - (i + String.length pattern)) text in
      before +:+ substitution pattern before after replacement +:+ after
  end.

(** ** messages.js *)

Module Messages.

Record pool : Type := Pool { probability : Z; set : list string }.

Definition shifty : pool := Pool 1 [":shifty:"].

Definition plus_messages : list pool :=
  [ Pool 100
      [ "Congrats!"; "Got it!"; "Bravo."; "Nice work!"; "Well done.";
        "Exquisite."; "Lovely."; "Superb."; "Classic!"; "Oh well done.";
        "Charming."; "Noted."; "Well, well!"; "Well played."; "Meow.";
        "Mmmmm...tacos."; "Delicious."; ":taconyancat:"; ":businesscat:";
        ":smile_cat:"; ":dance_pig:"; ":dance-carrot:"; ":dance-pickle:";
        ":doge_dance:"; ":jalapeno_dance_pbj:"; ":dancing_penguin:";
        ":burrito_dance:"; ":mario_luigi_dance:"; ":taco_dance:";
        "Om nom nom"; "Aw yeah!"; "Let's taco 'bout how awesome you are!";
        "If you don't like tacos, I'm nacho type"; "Purr-fect!";
        "Purr-ty good!"; "You've gotta be kitten me!"; ":smiley_cat:";
        ":heart_eyes_cat:";
        ":cookie: :cookie: COOOOKIES!!! Oh wait, sorry, wrong reference";
        "Was it a car or a cat I saw?"; "A nut for a jar of tuna";
        "Never odd or even" ];
    shifty ].

Definition minus_messages : list pool :=
  [ Pool 100
      [ "Oh RLY?"; "Oh, really?"; "Oh :slightly_frowning_face:."; "I see.";
        "Ouch."; "Oh là là."; "Oh."; "Condolences."; ":smirk_cat:" ];
    shifty ].

Definition equal_messages : list pool :=
  [ Pool 100 [ "How is"; "Why is" ]; shifty ].

Definition self_messages : list pool :=
  [ Pool 100 [ "Hahahahahahaha no."; "Nope."; "No. Just no."; "Not cool!" ];
    shifty ].

Definition totalProbability (messageSets : list pool) : Z :=
  fold_left (fun total s => total + probability s) messageSets 0.

(** The loop that walks the pools, the draw going down by each weight:
    the set chosen, if any, and what remains of the draw. *)
Fixpoint chooseSet (messageSets : list pool) (setRandom : Z)
    : option (list string) * Z :=
  match messageSets with
  | [] => (None, setRandom)
  | s :: rest =>
      let setRandom := setRandom - probability s in
      if (0 >? setRandom) then (Some (set s), setRandom)
      else chooseSet rest setRandom
  end.

(** [chosenSet[ random ]]; [undefined] outside the array. *)
Definition element (chosenSet : list string) (random : Z) : option string :=
  if (random <? 0) then None else chosenSet !! Z.to_nat random.

(** [random], the index of the message in the chosen set, for the draw
    [r]. *)
Definition message_index (chosenSet : list string) (r : Q) : Z :=
  let max := Z.of_nat (length chosenSet) - 1 in
  floor_times r max.

(** Reading a property of an object built by assignments: a later
    assignment under the same name replaces an earlier one. *)
Fixpoint assigned {V} (assignments : list (string * V)) (name : string)
    : option V :=
  match assignments with
  | [] => None
  | (k, v) :: later =>
      match assigned later name with
      | Some v' => Some v'
      | None => if String.eqb k name then Some v else None
      end
  end.

(** Every string of a family of pools. *)
Definition texts (messageSets : list pool) : list string :=
  concat (map set messageSets).

(** The chain of [replace] calls that fills the format in. *)
Definition compose (format item : string) (score tempScore : Z)
    (plural message : string) : string :=
  replace "<message>" message
    (replace "<plural>" plural
      (replace "<tempScore>" (string_of_Z tempScore)
        (replace "<score>" (string_of_Z score)
          (replace "<item>" item format)))).

Definition format_plus_minus : string :=
  "<message> *<item>* has <tempScore> :taco:<plural>. (<score> total)".
Definition format_self : string := "<item> <message>".
Definition format_equal : string :=
  "<message> *<item>* currently at <score> :taco:<plural>.".

Section Composer.
Context `{Operations} `{Helpers}.

(** The object [messages]: one assignment per kind, in the order of the
    file. *)
Definition messages : list (string * list pool) :=
  [ (PLUS, plus_messages); (MINUS, minus_messages);
    (EQUAL, equal_messages); (SELF, self_messages);
    (RANDOM, self_messages); (REALLYRANDOM, self_messages) ].

(** [messages[ operation ]]: the last assignment under that name. *)
Definition messages_at (operation : string) : option (list pool) :=
  assigned messages operation.

(** The [switch] on the operation. *)
Definition format_of (operation : string) : outcome string :=
  if String.eqb operation MINUS || String.eqb operation PLUS
  then Returned format_plus_minus
  else if String.eqb operation SELF
  then Returned format_self
  else if String.eqb operation EQUAL
  then Returned format_equal
  else Thrown (JsError ("Invalid operation: " +:+ operation)).

(** [getRandomMessage( operation, item, score = 0, tempScore = 0 )]. *)
Definition getRandomMessage (operation item : string)
    (score tempScore : option Z) : M string :=
  let score := default 0 score in
  let tempScore := default 0 tempScore in
  let messageSets := messages_at operation in
  match format_of operation with
  | Thrown e => throw e
  | Returned format =>
      match messageSets with
      | None => throw (TypeError "messageSets is not iterable")
      | Some messageSets =>
          let totalProbability := totalProbability messageSets in
          let* r := Math_random in
          let setRandom := floor_times r totalProbability in
          match chooseSet messageSets setRandom with
          | (None, setRandom) =>
              throw (JsError ("Could not find set for " +:+ operation +:+
                              " (ran out of sets with " +:+
                              string_of_Z setRandom +:+ " remaining)"))
          | (Some chosenSet, _) =>
              let plural := if isPlural score then "s" else "" in
              let* r := Math_random in
              let random := message_index chosenSet r in
              let message := default "undefined" (element chosenSet random) in
              ret (compose format (maybeLinkItem item) score tempScore
                     plural message)
          end
      end
  end.

End Composer.

End Messages.

(** ** events.js *)

Module Events.

Record event : Type := Event {
  user : string;
  channel : string;
  ts : string;
  text : string
}.

(** [slack.sendMessage] and its siblings: the call is handed to the
    gateway. *)
Definition slack (call : slack_call) : M unit :=
  modify (fun w => set_outbox (outbox w ++ [call]) w).

(** Starting an [async] call without awaiting it. *)
Definition start (t : task) : M unit :=
  modify (fun w => set_pending (pending w ++ [t]) w).

(** [!item] and [!quantity]: [undefined], the empty string and zero are
    falsy. *)
Definition truthy_string (s : option string) : option string :=
  match s with
  | Some EmptyString => None
  | other => other
  end.

Definition truthy_number (n : option Z) : option Z :=
  match n with
  | Some 0 => None
  | other => other
  end.

(** [cats > 0]. *)
Definition positive_number (n : option Z) : bool :=
  match n with
  | Some c => 0 <? c
  | None => false
  end.

(** Every call started is a crediting one. *)
Definition credits_only (started : list task) : Prop :=
  Forall (fun t => task_operation t = Plus) started.

(** An entry [handlers.message] goes past: item and quantity are truthy. *)
Definition valid (e : entry) : Prop :=
  truthy_string (item e) <> None /\ truthy_number (quantity e) <> None.

Definition no_soup (userInit : string) : string :=
  "No Soup for <@" +:+ userInit +:+ ">!" +:+ newline +:+
  "Sorry but you exceded your :taco: limit, check back tomorrow".

Section Handlers.
Context `{Operations} `{Helpers}.

Definition handleSelfPlus (user channel : string) : M unit :=
  let* message := Messages.getRandomMessage SELF user None None in
  slack (sendMessage message channel).

(** [points.checkCanUpdate( userInit, quantity )]: the function declares
    the one parameter [user]; the second argument is dropped by the
    call. *)
Definition points_checkCanUpdate (userInit : string) (quantity : Z) : M bool :=
  Points.checkCanUpdate userInit.

(** What [handlePlusMinus] does once the rate limiter has answered. *)
Definition handlePlusMinus_checked (check : bool) (item : string)
    (operation : symbol) (quantity : Z) (channel userInit ts : string)
    : M unit :=
  if check
  then
    let* score := ScoreStore.updateScore item operation quantity in
    let operationName := getOperationName operation in
    let* message := Messages.getRandomMessage operationName item
                      (Some (fst score)) (Some (snd score)) in
    slack (sendThreadMessage message channel ts)
  else
    slack (sendMessage (no_soup userInit) channel).

(** [handlePlusMinus( item, operation, quantity, channel, userInit, ts )],
    run from its start to its end. *)
Definition handlePlusMinus (item : string) (operation : symbol)
    (quantity : Z) (channel userInit ts : string) : M unit :=
  let* check := points_checkCanUpdate userInit quantity in
  handlePlusMinus_checked check item operation quantity channel userInit ts.

(** [reset( event )], the handler of the [reincarnate] command. *)
Definition reset (ev : event) : M unit :=
  do ScoreStore.resetTempScores then
  slack (sendMessage "TacoCat began another one of it's many lives."
           (channel ev)).

(** The body of the loop of [handlers.message] for an entry whose item
    and quantity are truthy. *)
Definition dispatch (ev : event) (item : string) (quantity : Z)
    (cats : option Z) : M unit :=
  if String.eqb item (user ev)
  then handleSelfPlus (user ev) (channel ev)
  else
    do start (handlePlusMinus_call item Plus quantity
                (channel ev) (user ev) (ts ev)) then
    if positive_number cats && String.eqb (user ev) "ULJ7NNS8H"
    then start (handlePlusMinus_call item Minus (default 0 cats)
                  (channel ev) (user ev) (ts ev))
    else ret tt.

(** The loop of [handlers.message] over the extracted entries. *)
Fixpoint message_loop (ev : event) (data : list entry) : M bool :=
  match data with
  | [] => ret true
  | e :: rest =>
      match truthy_string (item e), truthy_number (quantity e) with
      | Some item, Some quantity =>
          do dispatch ev item quantity (cats e) then
          message_loop ev rest
      | _, _ => ret false
      end
  end.

(** [handlers.message( event )]. *)
Definition handlers_message (ev : event) : M bool :=
  let data := extractPlusMinusEventData (text ev) in
  message_loop ev data.

(** A started call goes on to its end. *)
Definition resume (t : task) : M unit :=
  match t with
  | handlePlusMinus_call item operation quantity channel userInit ts =>
      handlePlusMinus item operation quantity channel userInit ts
  end.

(** The started calls run to their ends one after the other, oldest
    first; a call that is rejected does not stop the others. This is
    the schedule in which no two calls overlap. *)
Fixpoint resume_each (ts : list task) (w : world) : world :=
  match ts with
  | [] => w
  | t :: ts' => resume_each ts' (snd (resume t w))
  end.

Definition settle (w : world) : world :=
  resume_each (pending w) (set_pending [] w).

End Handlers.

(** *** The other handlers *)

Definition thankyouMessages : list string :=
  [ "Don't mention it!";
    "You're welcome.";
    "Pleasure!";
    "No thank YOU!";
    "++ for taking the time to say thanks!" +:+ newline +:+ "..." +:+
    "just kidding, I can't `++` you. But it's the thought that counts, right??" ].

(** [sayThankyou( event )]. *)
Definition sayThankyou (ev : event) : M unit :=
  let* r := Math_random in
  let randomKey := floor_times r (Z.of_nat (length thankyouMessages)) in
  let message := "<@" +:+ user ev +:+ "> " +:+
                 default "undefined" (at_index thankyouMessages randomKey) in
  slack (sendMessage message (channel ev)).

(** [handleTaco( channel )]. *)
Definition handleTaco (channel : string) : M unit :=
  slack (sendMessage ":taco:!" channel).

(** An event as it comes from Slack, before [handleEvent] has looked at it:
    a field that is not there is [None]. *)
Record slack_event : Type := SlackEvent {
  event_type : option string;
  subtype : option string;
  event_text : option string;
  reaction : option string;
  item_user : option string;
  event_user : string;
  event_channel : string;
  event_ts : string
}.

(** The event as the handlers of messages read it. *)
Definition as_event (e : slack_event) : event :=
  Event (event_user e) (event_channel e) (event_ts e) (default "" (event_text e)).

(** What [handleEvent] returns: a boolean, the promise of a handler, or
    what a method that [handlers] inherits from [Object.prototype] makes
    of the call. *)
Inductive answer : Type :=
  | Bool (b : bool)
  | Promise
  | Inherited (method : string).

(** The properties of [handlers] that are functions without being
    handlers: the methods of [Object.prototype]. *)
Definition inherited_methods : list string :=
  [ "constructor"; "hasOwnProperty"; "isPrototypeOf"; "propertyIsEnumerable";
    "toLocaleString"; "toString"; "valueOf"; "__defineGetter__";
    "__defineSetter__"; "__lookupGetter__"; "__lookupSetter__" ].

(** [handlers.reactionAdded( event, request )]: the call that would score
    the reaction is commented out. *)
Definition handlers_reactionAdded (e : slack_event) : M answer :=
  match item_user e with
  | Some target => ret (Bool (negb (String.eqb target (event_user e))))
  | None => ret (Bool true)
  end.

(** [x == s] for a field [x] and a string [s]. *)
Definition is_string (x : option string) (s : string) : bool :=
  match x with
  | Some text => String.eqb text s
  | None => false
  end.

Section Routing.
Context `{Operations} `{Helpers}.

(** [camelCase] of lodash and [trim] of JavaScript strings: not code of
    the repository, parameters here. *)
Variable camelCase : string -> string.
Variable trim : string -> string.

(** [handlers.appMention]: its commands lead into the leaderboard module
    and into helpers that are not among the sources; a parameter here. *)
Variable handlers_appMention : slack_event -> M answer.

(** [handleEvent( event, request )]. *)
Definition handleEvent (e : slack_event) : M answer :=
  match event_type e with
  | None => ret (Bool false)
  | Some type =>
      match subtype e with
      | Some _ => ret (Bool false)
      | None =>
          let reaction := String.eqb type "reaction_added"
                          && is_string (reaction e) "taco" in
          if negb reaction
             && match event_text e with
                | None => true
                | Some text => String.eqb (trim text) ""
                end
          then ret (Bool false)
          else
            let eventName := camelCase type in
            if String.eqb eventName "message"
            then let* result := handlers_message (as_event e) in
                 ret (Bool result)
            else if String.eqb eventName "reactionAdded"
            then handlers_reactionAdded e
            else if String.eqb eventName "appMention"
            then handlers_appMention e
            else if existsb (String.eqb eventName) inherited_methods
            then ret (Inherited eventName)
            else ret (Bool false)
      end
  end.

End Routing.

End Events.

(** ** The handler of a plus or minus as [src/index.js] carries it

    [src/index.js] carries, after the bootstrap of the server, the events
    module in the revision that goes with the points module above:
    [updateScore] is called with an item and a symbol and resolves to the
    score. *)
Module IndexJs.

Definition no_soup (userInit : string) : string :=
  "No Soup for <@" +:+ userInit +:+ ">!" +:+ newline +:+
  "Sorry but you exceded your duck limit, check back in 1 hour".

Section Handlers.
Context `{Operations} `{Helpers}.

(** [handlePlusMinus( item, operation, channel, userInit )]. *)
Definition handlePlusMinus (item : string) (operation : symbol)
    (channel userInit : string) : M unit :=
  let* check := Points.checkCanUpdate userInit in
  if check
  then
    let* score := Points.updateScore item operation in
    let operationName := getOperationName operation in
    let* message := Messages.getRandomMessage operationName item
                      (Some score) None in
    Events.slack (sendMessage message channel)
  else
    Events.slack (sendMessage (no_soup userInit) channel).

(** [operations.getOperationName] on the symbols that are neither a plus
    nor a minus: [src/operations.js] is not among the sources; a parameter
    here. *)
Variable symbolName : string -> string.

(** [handlePlusRandom( item, operation, channel )]. *)
Definition handlePlusRandom (item operation channel : string) : M unit :=
  let* score := Points.randomScore item operation in
  let operationName := symbolName operation in
  let* message := Messages.getRandomMessage operationName item
                    (Some score) None in
  Events.slack (sendMessage message channel).

(** [handlePlusMinus( item, '+', channel, userInit )] called once per clock
    value of a list, each call after the one before has settled. *)
Fixpoint credits (times : list Z) (item channel userInit : string)
    (w : world) : world :=
  match times with
  | [] => w
  | now :: rest =>
      credits rest item channel userInit
        (snd (handlePlusMinus item Plus channel userInit (at_time now w)))
  end.

End Handlers.

End IndexJs.

(** ** A deployment to evaluate the definitions on *)

Definition example_registry : Operations :=
  {| PLUS := "plus"; MINUS := "minus"; EQUAL := "equal"; SELF := "selfPlus";
     RANDOM := "random"; REALLYRANDOM := "reallyRandom" |}.

(** Helpers whose extraction yields [data] whatever the text. *)
Definition example_helpers (data : list entry) : Helpers :=
  {| isPlural := fun n => negb (n =? 1);
     maybeLinkItem := fun s => "<@" +:+ s +:+ ">";
     extractPlusMinusEventData := fun _ => data |}.

(** A process that has just started: empty tables, nothing sent, the clock
    at [now], every draw equal to [r]. *)
Definition fresh_world (max_ops : option Z) (now : Z) (r : Q) : world :=
  {| MAX_OPS := max_ops; clock := fun _ => now; entropy := fun _ => r;
     scores := ∅; usertracker := ∅; ledger := ∅; outbox := []; pending := [] |}.

(** * Properties *)

(** Side conditions of the case lemmas of the rate limiter. *)
Ltac side :=
  first [ apply lookup_insert_eq | assumption | reflexivity | lia ].

(** ** Equations of the monad *)

Lemma bind_ret {A B} (a : A) (k : A -> M B) w : bind (ret a) k w = k a w.
Proof. reflexivity. Qed.

Lemma bind_gets {A B} (f : world -> A) (k : A -> M B) w :
  bind (gets f) k w = k (f w) w.
Proof. reflexivity. Qed.

Lemma bind_modify {B} (f : world -> world) (k : unit -> M B) w :
  bind (modify f) k w = k tt (f w).
Proof. reflexivity. Qed.

Lemma bind_returned {A B} (m : M A) (k : A -> M B) w a w' :
  m w = (Returned a, w') -> bind m k w = k a w'.
Proof. intros E. unfold bind. now rewrite E. Qed.

Lemma bind_thrown {A B} (m : M A) (k : A -> M B) w e w' :
  m w = (Thrown e, w') -> bind m k w = (Thrown e, w').
Proof. intros E. unfold bind. now rewrite E. Qed.

(** While the clock stands still a reading changes nothing. *)
Lemma bind_now {B} (k : Z -> M B) now w :
  bind Date_now k (at_time now w) = k now (at_time now w).
Proof. reflexivity. Qed.

(** ** The tables *)

Lemma int4_spec z : int4 z = true <-> -2147483648 <= z <= 2147483647.
Proof. unfold int4. rewrite andb_true_iff, !Z.leb_le. tauto. Qed.

Lemma select_found {V} (key : string) (t : gmap string V) row :
  t !! citext key = Some row -> select key t = [row].
Proof. intros E. unfold select. now rewrite E. Qed.

Lemma select_missing {V} (key : string) (t : gmap string V) :
  t !! citext key = None -> select key t = [].
Proof. intros E. unfold select. now rewrite E. Qed.

Lemma upsert_conflict {V} (fits : V -> bool) key row f (t : gmap string V) old new :
  t !! citext key = Some old -> f old = new ->
  fits row = true -> fits new = true ->
  upsert fits key row f t = Returned (<[citext key := new]> t).
Proof. intros E <- H1 H2. unfold upsert. now rewrite H1, E, H2. Qed.

Lemma upsert_free {V} (fits : V -> bool) key row f (t : gmap string V) :
  t !! citext key = None -> fits row = true ->
  upsert fits key row f t = Returned (<[citext key := row]> t).
Proof. intros E H1. unfold upsert. now rewrite H1, E. Qed.

(** Keys that differ by letter case only name the same row. *)
Lemma citext_idempotent s : citext (citext s) = citext s.
Proof.
  induction s as [|c s IH]; [reflexivity|]. cbn [citext]. f_equal; [|exact IH].
  unfold lower.
  destruct ((65 <=? nat_of_ascii c)%nat && (nat_of_ascii c <=? 90)%nat) eqn:E.
  - apply andb_true_iff in E as [E1 E2].
    apply Nat.leb_le in E1. apply Nat.leb_le in E2.
    rewrite nat_ascii_embedding by lia.
    replace ((nat_of_ascii c + 32 <=? 90)%nat) with false
      by (symmetry; apply Nat.leb_gt; lia).
    now rewrite andb_false_r.
  - now rewrite E.
Qed.

Lemma fits_tracker_spec ops ts :
  int4 ops = true -> int4 ts = true -> Points.fits_tracker (ops, ts) = true.
Proof. intros H1 H2. unfold Points.fits_tracker. simpl. now rewrite H1, H2. Qed.

Lemma bind_query_usertracker {B} f (k : unit -> M B) t w :
  f (usertracker w) = Returned t ->
  bind (Points.query_usertracker f) k w = k tt (set_usertracker t w).
Proof. intros E. unfold bind, Points.query_usertracker. now rewrite E. Qed.

Lemma bind_query_scores {B} f (k : unit -> M B) t w :
  f (scores w) = Returned t ->
  bind (Points.query_scores f) k w = k tt (set_scores t w).
Proof. intros E. unfold bind, Points.query_scores. now rewrite E. Qed.

(** ** The rate limiter, case by case *)

(** Inside the window and below the maximum: one more operation is counted. *)
Lemma decide_counts user w now ops ts old :
  usertracker w !! citext user = Some old ->
  now - ts < 3600 ->
  Points.reached ops (MAX_OPS w) = false ->
  int4 ts = true -> int4 (ops + 1) = true -> int4 (snd old) = true ->
  Points.decide_and_write user (ops, ts) (at_time now w)
  = (Returned true,
     set_usertracker (<[citext user := (ops + 1, snd old)]> (usertracker w))
       (at_time now w)).
Proof.
  intros Hrow Hwin Hmax Hts Hops Hold.
  unfold Points.decide_and_write. rewrite bind_now. cbn [fst snd].
  destruct (Z.ltb_spec (now - ts) 3600); [|lia].
  rewrite bind_gets. change (MAX_OPS (at_time now w)) with (MAX_OPS w). rewrite Hmax.
  erewrite bind_query_usertracker; [reflexivity|].
  apply (upsert_conflict _ _ _ _ _ old _ Hrow); auto using fits_tracker_spec.
Qed.

(** Inside the window with the maximum reached: denied, nothing written. *)
Lemma decide_denies user w now ops ts :
  now - ts < 3600 ->
  Points.reached ops (MAX_OPS w) = true ->
  Points.decide_and_write user (ops, ts) (at_time now w)
  = (Returned false, at_time now w).
Proof.
  intros Hwin Hmax.
  unfold Points.decide_and_write. rewrite bind_now. cbn [fst snd].
  destruct (Z.ltb_spec (now - ts) 3600); [|lia].
  rewrite bind_gets. change (MAX_OPS (at_time now w)) with (MAX_OPS w).
  now rewrite Hmax.
Qed.

(** The window is over: a new one opens with this operation as its first. *)
Lemma decide_resets user w now ops ts old :
  usertracker w !! citext user = Some old ->
  3600 <= now - ts ->
  int4 now = true ->
  Points.decide_and_write user (ops, ts) (at_time now w)
  = (Returned true,
     set_usertracker (<[citext user := (1, now)]> (usertracker w)) (at_time now w)).
Proof.
  intros Hrow Hwin Hnow.
  unfold Points.decide_and_write. rewrite bind_now. cbn [fst snd].
  destruct (Z.ltb_spec (now - ts) 3600); [lia|].
  rewrite !bind_now.
  erewrite bind_query_usertracker; [reflexivity|].
  apply (upsert_conflict _ _ _ _ _ old _ Hrow); auto using fits_tracker_spec.
Qed.

Lemma checkCanUpdate_known user w row :
  usertracker w !! citext user = Some row ->
  Points.checkCanUpdate user w = Points.decide_and_write user row w.
Proof.
  intros Hrow. unfold Points.checkCanUpdate. rewrite bind_gets.
  rewrite (select_found _ _ _ Hrow). reflexivity.
Qed.

Lemma insert_zero_fresh user w now :
  usertracker w !! citext user = None ->
  int4 now = true ->
  Points.insert_zero user (at_time now w)
  = (Returned tt,
     set_usertracker (<[citext user := (0, now)]> (usertracker w)) (at_time now w)).
Proof.
  intros Hrow Hnow. unfold Points.insert_zero. rewrite !bind_now.
  unfold Points.query_usertracker.
  change (usertracker (at_time now w)) with (usertracker w).
  rewrite (upsert_free _ _ _ _ _ Hrow); auto using fits_tracker_spec.
Qed.

Lemma checkCanUpdate_fresh user w now :
  usertracker w !! citext user = None ->
  int4 now = true ->
  Points.checkCanUpdate user (at_time now w)
  = Points.decide_and_write user (0, now)
      (set_usertracker (<[citext user := (0, now)]> (usertracker w)) (at_time now w)).
Proof.
  intros Hrow Hnow. unfold Points.checkCanUpdate. rewrite bind_gets.
  change (usertracker (at_time now w)) with (usertracker w).
  rewrite (select_missing _ _ Hrow).
  change (Z.of_nat (length []) <? 1) with true. cbv iota.
  erewrite (bind_returned (bind _ _)).
  2:{ erewrite bind_returned by (apply insert_zero_fresh; eassumption).
      unfold gets. reflexivity. }
  cbn [usertracker set_usertracker].
  rewrite (select_found _ _ (0, now)) by apply lookup_insert_eq.
  reflexivity.
Qed.

(** The first evaluation of a window, for a user with no record or with a
    record whose window is over: allowed, and the record becomes [(1, now)]. *)
Lemma checkCanUpdate_opens_window user w now m :
  MAX_OPS w = Some m -> 0 < m ->
  usertracker w !! citext user = None
  \/ (exists ops ts, usertracker w !! citext user = Some (ops, ts)
                     /\ 3600 <= now - ts) ->
  int4 now = true ->
  Points.checkCanUpdate user (at_time now w)
  = (Returned true,
     set_usertracker (<[citext user := (1, now)]> (usertracker w)) (at_time now w)).
Proof.
  intros Hmax Hm [Hrow | (ops & ts & Hrow & Hover)] Hnow.
  - rewrite checkCanUpdate_fresh by assumption.
    change (set_usertracker ?t (at_time now w)) with (at_time now (set_usertracker t w)).
    rewrite (decide_counts user _ now 0 now (0, now));
      cbn [usertracker set_usertracker MAX_OPS snd].
    + rewrite insert_insert_eq. reflexivity.
    + apply lookup_insert_eq.
    + lia.
    + rewrite Hmax. cbn. apply Z.leb_gt. lia.
    + assumption.
    + reflexivity.
    + assumption.
  - rewrite (checkCanUpdate_known user (at_time now w) _ Hrow).
    now apply (decide_resets _ _ _ _ _ _ Hrow).
Qed.

Lemma checkCanUpdate_counts user w now ops ts :
  usertracker w !! citext user = Some (ops, ts) ->
  now - ts < 3600 ->
  Points.reached ops (MAX_OPS w) = false ->
  int4 ts = true -> int4 (ops + 1) = true ->
  Points.checkCanUpdate user (at_time now w)
  = (Returned true,
     set_usertracker (<[citext user := (ops + 1, ts)]> (usertracker w))
       (at_time now w)).
Proof.
  intros Hrow Hwin Hmax Hts Hops.
  rewrite (checkCanUpdate_known user (at_time now w) _ Hrow).
  now apply (decide_counts _ _ _ _ _ (ops, ts)).
Qed.

Lemma checkCanUpdate_denies user w now ops ts :
  usertracker w !! citext user = Some (ops, ts) ->
  now - ts < 3600 ->
  Points.reached ops (MAX_OPS w) = true ->
  Points.checkCanUpdate user (at_time now w) = (Returned false, at_time now w).
Proof.
  intros Hrow Hwin Hmax.
  rewrite (checkCanUpdate_known user (at_time now w) _ Hrow).
  now apply decide_denies.
Qed.

Lemma checkCanUpdate_new_window user w now ops ts :
  usertracker w !! citext user = Some (ops, ts) ->
  3600 <= now - ts ->
  int4 now = true ->
  Points.checkCanUpdate user (at_time now w)
  = (Returned true,
     set_usertracker (<[citext user := (1, now)]> (usertracker w)) (at_time now w)).
Proof.
  intros Hrow Hover Hnow.
  rewrite (checkCanUpdate_known user (at_time now w) _ Hrow).
  now apply (decide_resets _ _ _ _ _ _ Hrow).
Qed.

(** C3. With [MAX_OPS = 3], four evaluations in a row for one user within
    one hour, the first of them opening the window (the user has no record,
    or a record whose window is over), are allowed, allowed, allowed and
    denied, and leave the record at count 3. Whatever the record, an
    evaluation 3600 seconds or more after its window start is allowed and
    rewrites the record to count 1 with the current time as window start. *)
Theorem rate_limit_three_per_hour user w t1 t2 t3 t4 :
  MAX_OPS w = Some 3 ->
  usertracker w !! citext user = None
  \/ (exists ops ts, usertracker w !! citext user = Some (ops, ts)
                     /\ 3600 <= t1 - ts) ->
  int4 t1 = true ->
  t1 <= t2 <= t3 /\ t3 <= t4 < t1 + 3600 ->
  let e1 := Points.checkCanUpdate user (at_time t1 w) in
  let e2 := Points.checkCanUpdate user (at_time t2 (snd e1)) in
  let e3 := Points.checkCanUpdate user (at_time t3 (snd e2)) in
  let e4 := Points.checkCanUpdate user (at_time t4 (snd e3)) in
  (fst e1, fst e2, fst e3, fst e4)
  = (Returned true, Returned true, Returned true, Returned false)
  /\ usertracker (snd e4) !! citext user = Some (3, t1)
  /\ forall w' ops ts now,
       usertracker w' !! citext user = Some (ops, ts) ->
       3600 <= now - ts ->
       int4 now = true ->
       let e := Points.checkCanUpdate user (at_time now w') in
       fst e = Returned true
       /\ usertracker (snd e) !! citext user = Some (1, now).
Proof.
  intros Hmax Hstart Ht1 Htimes e1 e2 e3 e4.
  assert (E1 : e1 = (Returned true,
                     set_usertracker (<[citext user := (1, t1)]> (usertracker w))
                       (at_time t1 w))).
  { apply checkCanUpdate_opens_window with (m := 3); auto; lia. }
  assert (E2 : e2 = (Returned true,
                     set_usertracker (<[citext user := (2, t1)]> (usertracker (snd e1)))
                       (at_time t2 (snd e1)))).
  { apply (checkCanUpdate_counts user (snd e1) t2 1 t1); rewrite ?E1;
      cbn [snd usertracker MAX_OPS set_usertracker at_time set_clock];
      rewrite ?Hmax; side. }
  assert (E3 : e3 = (Returned true,
                     set_usertracker (<[citext user := (3, t1)]> (usertracker (snd e2)))
                       (at_time t3 (snd e2)))).
  { apply (checkCanUpdate_counts user (snd e2) t3 2 t1); rewrite ?E2;
      cbn [snd usertracker MAX_OPS set_usertracker at_time set_clock];
      rewrite ?E1; cbn [snd usertracker MAX_OPS set_usertracker at_time set_clock];
      rewrite ?Hmax; side. }
  assert (R3 : usertracker (snd e3) !! citext user = Some (3, t1)).
  { rewrite E3. cbn [snd usertracker set_usertracker]. apply lookup_insert_eq. }
  assert (M3 : MAX_OPS (snd e3) = Some 3).
  { rewrite E3, E2, E1. exact Hmax. }
  assert (E4 : e4 = (Returned false, at_time t4 (snd e3))).
  { apply (checkCanUpdate_denies user (snd e3) t4 3 t1); rewrite ?M3; side. }
  split; [|split].
  - now rewrite E1, E2, E3, E4.
  - rewrite E4. exact R3.
  - intros w' ops ts now Hrow Hover Hnow e.
    unfold e. rewrite (checkCanUpdate_new_window _ _ _ _ _ Hrow Hover Hnow).
    split; [reflexivity|].
    cbn [snd usertracker set_usertracker]. apply lookup_insert_eq.
Qed.

Lemma rate_limit_three_per_hour_witness :
  let w := fresh_world (Some 3) 0 0 in
  let e1 := Points.checkCanUpdate "U024BE7LH" (at_time 1000 w) in
  let e2 := Points.checkCanUpdate "U024BE7LH" (at_time 1900 (snd e1)) in
  let e3 := Points.checkCanUpdate "U024BE7LH" (at_time 2800 (snd e2)) in
  let e4 := Points.checkCanUpdate "U024BE7LH" (at_time 4599 (snd e3)) in
  (fst e1, fst e2, fst e3, fst e4)
  = (Returned true, Returned true, Returned true, Returned false).
Proof.
  refine (proj1 (rate_limit_three_per_hour "U024BE7LH"
                   (fresh_world (Some 3) 0 0) 1000 1900 2800 4599 _ _ _ _)).
  - reflexivity.
  - left. reflexivity.
  - reflexivity.
  - lia.
Defined.

(** ** One evaluation step by step, and two in flight *)

(** Taken without interruption, the steps are the function. *)
Lemma run_alone_agrees user w :
  Points.run_alone user w
  = (Points.Settled (fst (Points.checkCanUpdate user w)),
     snd (Points.checkCanUpdate user w)).
Proof.
  unfold Points.run_alone.
  destruct (usertracker w !! citext user) as [row|] eqn:Hrow.
  - assert (S1 : Points.step user Points.AtSelect w = (Points.AtWrite [row], w)).
    { unfold Points.step. now rewrite (select_found _ _ _ Hrow). }
    rewrite S1. cbn [fst snd Points.step first_row]. rewrite bind_ret.
    now rewrite (checkCanUpdate_known _ _ _ Hrow).
  - assert (S1 : Points.step user Points.AtSelect w = (Points.AtInsert, w)).
    { unfold Points.step. now rewrite (select_missing _ _ Hrow). }
    rewrite S1. cbn [fst snd].
    unfold Points.checkCanUpdate. rewrite bind_gets, (select_missing _ _ Hrow).
    change (Z.of_nat (length []) <? 1) with true. cbv iota.
    destruct (Points.insert_zero user w) as [[[]|e] w'] eqn:Hins.
    + assert (S2 : Points.step user Points.AtInsert w = (Points.AtReselect, w')).
      { unfold Points.step. now rewrite Hins. }
      rewrite S2. cbn [fst snd Points.step].
      erewrite (bind_returned (bind _ _)).
      2:{ erewrite bind_returned by exact Hins. unfold gets. reflexivity. }
      reflexivity.
    + assert (S2 : Points.step user Points.AtInsert w
                   = (Points.Settled (Thrown e), w')).
      { unfold Points.step. now rewrite Hins. }
      rewrite S2. cbn [fst snd Points.step].
      erewrite (bind_thrown (bind _ _)).
      2:{ erewrite bind_thrown by exact Hins. reflexivity. }
      reflexivity.
Qed.

(** C8. The check and the increment are two statements, and another
    evaluation can run between them. With one slot left in the window (the
    count is one below the maximum) and two evaluations for the same user in
    flight, the schedule in which both read the record before either writes
    lets both through; the count stored is the maximum, one operation short
    of the two that were allowed. *)
Theorem concurrent_evaluations_both_allowed user w now ops ts :
  usertracker w !! citext user = Some (ops, ts) ->
  now - ts < 3600 ->
  MAX_OPS w = Some (ops + 1) ->
  int4 ts = true -> int4 (ops + 1) = true ->
  Points.interleave user user
    [Points.First; Points.Second; Points.First; Points.Second]
    Points.AtSelect Points.AtSelect (at_time now w)
  = (Points.Settled (Returned true), Points.Settled (Returned true),
     set_usertracker (<[citext user := (ops + 1, ts)]> (usertracker w))
       (at_time now w)).
Proof.
  intros Hrow Hwin Hmax Hts Hops.
  assert (Hbelow : Points.reached ops (Some (ops + 1)) = false).
  { cbn. apply Z.leb_gt. lia. }
  cbn [Points.interleave].
  assert (S1 : Points.step user Points.AtSelect (at_time now w)
               = (Points.AtWrite [(ops, ts)], at_time now w)).
  { unfold Points.step.
    change (usertracker (at_time now w)) with (usertracker w).
    now rewrite (select_found _ _ _ Hrow). }
  rewrite S1. cbn [fst snd]. rewrite S1. cbn [fst snd].
  set (w1 := set_usertracker (<[citext user := (ops + 1, ts)]> (usertracker w)) w).
  assert (S3 : Points.step user (Points.AtWrite [(ops, ts)]) (at_time now w)
               = (Points.Settled (Returned true), at_time now w1)).
  { cbn [Points.step first_row]. rewrite bind_ret.
    rewrite (decide_counts user w now ops ts (ops, ts));
      [reflexivity | try rewrite Hmax; side ..]. }
  assert (S4 : Points.step user (Points.AtWrite [(ops, ts)]) (at_time now w1)
               = (Points.Settled (Returned true), at_time now w1)).
  { cbn [Points.step first_row]. rewrite bind_ret.
    rewrite (decide_counts user w1 now ops ts (ops + 1, ts));
      unfold w1; cbn [usertracker set_usertracker MAX_OPS snd];
      [now rewrite insert_insert_eq | try rewrite Hmax; side ..]. }
  rewrite S3. cbn [fst snd]. rewrite S4. reflexivity.
Qed.

Lemma concurrent_evaluations_both_allowed_witness :
  let w := set_usertracker {[ "u024be7lh" := (2, 1000) ]} (fresh_world (Some 3) 0 0) in
  Points.interleave "U024BE7LH" "U024BE7LH"
    [Points.First; Points.Second; Points.First; Points.Second]
    Points.AtSelect Points.AtSelect (at_time 1500 w)
  = (Points.Settled (Returned true), Points.Settled (Returned true),
     set_usertracker (<[ "u024be7lh" := (3, 1000) ]> (usertracker w))
       (at_time 1500 w)).
Proof.
  apply (concurrent_evaluations_both_allowed "U024BE7LH"
           (set_usertracker {[ "u024be7lh" := (2, 1000) ]} (fresh_world (Some 3) 0 0))
           1500 2 1000).
  - reflexivity.
  - lia.
  - reflexivity.
  - reflexivity.
  - reflexivity.
Defined.

(** Run one after the other, the same two evaluations are allowed and
    denied. *)
Lemma sequential_evaluations_one_allowed user w now ops ts :
  usertracker w !! citext user = Some (ops, ts) ->
  now - ts < 3600 ->
  MAX_OPS w = Some (ops + 1) ->
  int4 ts = true -> int4 (ops + 1) = true ->
  let e1 := Points.checkCanUpdate user (at_time now w) in
  let e2 := Points.checkCanUpdate user (at_time now (snd e1)) in
  fst e1 = Returned true /\ fst e2 = Returned false.
Proof.
  intros Hrow Hwin Hmax Hts Hops e1 e2.
  assert (E1 : e1 = (Returned true,
                     set_usertracker (<[citext user := (ops + 1, ts)]> (usertracker w))
                       (at_time now w))).
  { apply checkCanUpdate_counts; try side.
    rewrite Hmax. cbn. apply Z.leb_gt. lia. }
  split; [now rewrite E1|].
  unfold e2. rewrite E1. cbn [snd].
  rewrite (checkCanUpdate_denies user _ now (ops + 1) ts); try side.
  cbn [MAX_OPS set_usertracker at_time set_clock]. rewrite Hmax.
  cbn. apply Z.leb_le. lia.
Qed.

(** ** The score table of the points module *)

(** C2. [getScore] on an item that has no record is rejected with the
    [TypeError] of reading [score] on [undefined]; no record is created and
    nothing else changes. *)
Theorem getScore_without_record_throws item operation w :
  scores w !! citext item = None ->
  Points.getScore item operation w
  = (Thrown (TypeError "Cannot read property 'score' of undefined"), w).
Proof.
  intros Hrow. unfold Points.getScore. rewrite bind_gets.
  now rewrite (select_missing _ _ Hrow).
Qed.

Lemma getScore_without_record_throws_witness :
  Points.getScore "Sriracha" Plus (fresh_world (Some 3) 1000 0)
  = (Thrown (TypeError "Cannot read property 'score' of undefined"),
     fresh_world (Some 3) 1000 0).
Proof.
  apply (getScore_without_record_throws "Sriracha" Plus (fresh_world (Some 3) 1000 0)).
  reflexivity.
Defined.

(** With a record, [getScore] returns its score and writes nothing. *)
Lemma getScore_with_record item operation w score :
  scores w !! citext item = Some score ->
  Points.getScore item operation w = (Returned score, w).
Proof.
  intros Hrow. unfold Points.getScore. rewrite bind_gets.
  now rewrite (select_found _ _ _ Hrow).
Qed.

(** One [updateScore( item, '+' )]: the score, read as 0 when the item has no
    record, goes up by one and is returned. *)
Lemma updateScore_plus item w :
  let score := default 0 (scores w !! citext item) in
  int4 (score + 1) = true ->
  Points.updateScore item Plus w
  = (Returned (score + 1),
     set_scores (<[citext item := score + 1]> (scores w)) w).
Proof.
  intros score Hfits. unfold Points.updateScore.
  destruct (scores w !! citext item) as [s|] eqn:Hrow; cbn in score; subst score.
  - erewrite bind_query_scores
      by (eapply upsert_conflict; [exact Hrow|reflexivity|reflexivity|exact Hfits]).
    rewrite bind_gets. cbn [scores set_scores].
    rewrite (select_found _ _ (s + 1)) by apply lookup_insert_eq.
    reflexivity.
  - erewrite bind_query_scores
      by (apply (upsert_free _ _ _ _ _ Hrow); reflexivity).
    rewrite bind_gets. cbn [scores set_scores].
    rewrite (select_found _ _ 1) by apply lookup_insert_eq.
    reflexivity.
Qed.

Lemma plus_one_times_score n : forall item w,
  0 <= default 0 (scores w !! citext item) ->
  default 0 (scores w !! citext item) + Z.of_nat n <= 2147483647 ->
  (n = 0%nat \/ is_Some (scores (Points.plus_one_times n item w) !! citext item))
  /\ default 0 (scores (Points.plus_one_times n item w) !! citext item)
     = default 0 (scores w !! citext item) + Z.of_nat n.
Proof.
  induction n as [|n IH]; intros item w Hpos Hmax.
  - cbn [Points.plus_one_times]. split; [now left | lia].
  - cbn [Points.plus_one_times].
    rewrite updateScore_plus by (apply int4_spec; lia).
    cbn [snd].
    set (w1 := set_scores _ w).
    assert (H1 : scores w1 !! citext item
                 = Some (default 0 (scores w !! citext item) + 1)).
    { unfold w1. cbn [scores set_scores]. apply lookup_insert_eq. }
    assert (D1 : default 0 (scores w1 !! citext item)
                 = default 0 (scores w !! citext item) + 1)
      by now rewrite H1.
    destruct (IH item w1) as [Hsome Hval]; [lia | lia |].
    split.
    + right. destruct Hsome as [->|Hsome]; [|exact Hsome].
      cbn [Points.plus_one_times]. rewrite H1. eauto.
    + rewrite Hval, D1. lia.
Qed.

(** ** The score store with the era score *)

Lemma updateScore_record item operation quantity w :
  ScoreStore.record_of item (snd (ScoreStore.updateScore item operation quantity w))
  = (fst (ScoreStore.record_of item w) + signed operation quantity,
     snd (ScoreStore.record_of item w) + signed operation quantity).
Proof.
  unfold ScoreStore.record_of, ScoreStore.updateScore.
  cbn [snd ledger set_ledger]. now rewrite lookup_insert_eq.
Qed.

Lemma plus_one_times_record n : forall item w,
  ScoreStore.record_of item (ScoreStore.plus_one_times n item w)
  = (fst (ScoreStore.record_of item w) + Z.of_nat n,
     snd (ScoreStore.record_of item w) + Z.of_nat n).
Proof.
  induction n as [|n IH]; intros item w.
  - cbn [ScoreStore.plus_one_times]. destruct (ScoreStore.record_of item w).
    cbn [fst snd]. f_equal; lia.
  - cbn [ScoreStore.plus_one_times]. rewrite IH, updateScore_record.
    cbn [fst snd signed]. f_equal; lia.
Qed.

(** [reset]: every record keeps its total and has its era score at 0. *)
Lemma reset_record ev item w :
  fst (Events.reset ev w) = Returned tt
  /\ ScoreStore.record_of item (snd (Events.reset ev w))
     = (fst (ScoreStore.record_of item w), 0).
Proof.
  unfold Events.reset, ScoreStore.resetTempScores, Events.slack.
  rewrite bind_modify. unfold modify. cbn [fst snd]. split; [reflexivity|].
  unfold ScoreStore.record_of. cbn [ledger set_ledger set_outbox].
  rewrite lookup_fmap. now destruct (ledger w !! citext item).
Qed.

(** C1. From an item never scored, [(+1)] applied [N] times in sequence
    leaves [total = temp = N]; the reset of the [reincarnate] command that
    follows leaves [temp = 0] and [total = N], and likewise keeps the total
    and zeroes the era score of every other item. On the one score column of
    the points module, [N] calls of [updateScore( item, '+' )] leave the
    score at [N], for [N] within the range of the INTEGER column. *)
Theorem plus_n_then_reset (N : nat) item ev w :
  ledger w !! citext item = None ->
  let w1 := ScoreStore.plus_one_times N item w in
  let w2 := snd (Events.reset ev w1) in
  ScoreStore.record_of item w1 = (Z.of_nat N, Z.of_nat N)
  /\ fst (Events.reset ev w1) = Returned tt
  /\ ScoreStore.record_of item w2 = (Z.of_nat N, 0)
  /\ (forall other,
        ScoreStore.record_of other w2 = (fst (ScoreStore.record_of other w1), 0))
  /\ let v := Points.plus_one_times N item w in
     (scores w !! citext item = None ->
      (1 <= N)%nat -> Z.of_nat N <= 2147483647 ->
      Points.getScore item Plus v = (Returned (Z.of_nat N), v)).
Proof.
  intros Hledger w1 w2.
  assert (R1 : ScoreStore.record_of item w1 = (Z.of_nat N, Z.of_nat N)).
  { unfold w1. rewrite plus_one_times_record.
    unfold ScoreStore.record_of. rewrite Hledger. reflexivity. }
  split; [exact R1|]. split; [apply (reset_record ev item w1)|].
  split; [unfold w2; rewrite (proj2 (reset_record ev item w1)), R1; reflexivity|].
  split; [intros other; apply reset_record|].
  intros v Hscores HN Hmax.
  destruct (plus_one_times_score N item w) as [Hsome Hval];
    rewrite ?Hscores; cbn [default]; try lia.
  destruct Hsome as [->|[score Hscore]]; [lia|].
  fold v in Hscore, Hval. rewrite Hscore, Hscores in Hval. cbn in Hval. subst score.
  now apply getScore_with_record.
Qed.

Lemma plus_n_then_reset_witness :
  let w := fresh_world (Some 3) 1000 0 in
  let ev := Events.Event "U024BE7LH" "C2147483705" "1355517523.000005" "reincarnate" in
  let w1 := ScoreStore.plus_one_times 3 "Sriracha" w in
  let w2 := snd (Events.reset ev w1) in
  ScoreStore.record_of "Sriracha" w1 = (3, 3)
  /\ ScoreStore.record_of "Sriracha" w2 = (3, 0).
Proof.
  pose proof (plus_n_then_reset 3 "Sriracha"
                (Events.Event "U024BE7LH" "C2147483705" "1355517523.000005" "reincarnate")
                (fresh_world (Some 3) 1000 0) eq_refl) as H.
  cbv zeta in H. split; [exact (proj1 H) | exact (proj1 (proj2 (proj2 H)))].
Defined.

(** ** The message composer *)

Lemma floor_times_range r n :
  unit_draw r -> 0 < n -> 0 <= floor_times r n < n.
Proof.
  intros [Hlo Hhi] Hn. unfold floor_times.
  assert (Hn' : (inject_Z 0 < inject_Z n)%Q) by (rewrite <- Zlt_Qlt; exact Hn).
  change (inject_Z 0) with 0%Q in Hn'.
  split.
  - change 0 with (Qfloor 0). apply Qfloor_resp_le.
    apply Qmult_le_0_compat; [exact Hlo | now apply Qlt_le_weak].
  - rewrite Zlt_Qlt.
    apply Qle_lt_trans with (r * inject_Z n)%Q; [apply Qfloor_le|].
    rewrite <- (Qmult_1_l (inject_Z n)) at 2.
    apply Qmult_lt_compat_r; assumption.
Qed.

Lemma floor_times_zero r : floor_times r 0 = 0.
Proof.
  unfold floor_times. change 0 with (Qfloor 0) at 2.
  apply Qfloor_comp. change (inject_Z 0) with 0%Q. apply Qmult_0_r.
Qed.

Lemma total_from (sets : list Messages.pool) : forall a,
  fold_left (fun total s => total + Messages.probability s) sets a
  = a + Messages.totalProbability sets.
Proof.
  unfold Messages.totalProbability.
  induction sets as [|s sets IH]; intros a; cbn [fold_left]; [lia|].
  rewrite IH, (IH (0 + _)). lia.
Qed.

Lemma totalProbability_cons s sets :
  Messages.totalProbability (s :: sets)
  = Messages.probability s + Messages.totalProbability sets.
Proof.
  unfold Messages.totalProbability at 1. cbn [fold_left]. now rewrite total_from.
Qed.

Lemma totalProbability_nonneg sets :
  Forall (fun s => 0 <= Messages.probability s) sets ->
  0 <= Messages.totalProbability sets.
Proof.
  induction 1 as [|s sets Hs _ IH]; [reflexivity|].
  rewrite totalProbability_cons. lia.
Qed.

(** The weighted draw: with weights that are not negative, the set chosen is
    that of the first pool whose cumulative weight exceeds the draw. *)
Lemma chooseSet_weighted before : forall s after setRandom,
  Forall (fun p => 0 <= Messages.probability p) before ->
  Messages.totalProbability before <= setRandom
    < Messages.totalProbability before + Messages.probability s ->
  Messages.chooseSet (before ++ s :: after) setRandom
  = (Some (Messages.set s),
     setRandom - Messages.totalProbability before - Messages.probability s).
Proof.
  induction before as [|p before IH]; intros s after d Hpos Hd.
  - change (Messages.totalProbability []) with 0 in *.
    cbn [app Messages.chooseSet].
    destruct (Z.gtb_spec 0 (d - Messages.probability s)); [|lia].
    f_equal. lia.
  - inversion Hpos as [|? ? Hp Hpos']; subst.
    rewrite totalProbability_cons in *.
    pose proof (totalProbability_nonneg _ Hpos').
    cbn [app Messages.chooseSet].
    destruct (Z.gtb_spec 0 (d - Messages.probability p)); [lia|].
    rewrite IH by (auto; lia). f_equal. lia.
Qed.

(** A draw below the sum of the weights finds a set. *)
Lemma chooseSet_finds sets : forall setRandom,
  0 <= setRandom < Messages.totalProbability sets ->
  exists s rest,
    In s sets /\ Messages.chooseSet sets setRandom = (Some (Messages.set s), rest).
Proof.
  induction sets as [|s sets IH]; intros d Hd.
  - unfold Messages.totalProbability in Hd. cbn [fold_left] in Hd. lia.
  - rewrite totalProbability_cons in Hd. cbn [Messages.chooseSet].
    destruct (Z.gtb_spec 0 (d - Messages.probability s)).
    + exists s, (d - Messages.probability s). split; [now left | reflexivity].
    + destruct (IH (d - Messages.probability s)) as (s' & rest & Hin & E); [lia|].
      exists s', rest. split; [now right | exact E].
Qed.

(** The index of the message: never the last position of a set of two or
    more. *)
Lemma message_index_range chosenSet r :
  unit_draw r -> (1 <= length chosenSet)%nat ->
  0 <= Messages.message_index chosenSet r
  /\ Messages.message_index chosenSet r < Z.of_nat (length chosenSet)
  /\ ((2 <= length chosenSet)%nat ->
      Messages.message_index chosenSet r < Z.of_nat (length chosenSet) - 1).
Proof.
  intros Hr Hlen. unfold Messages.message_index.
  destruct (Z.eq_dec (Z.of_nat (length chosenSet) - 1) 0) as [E|E].
  - rewrite E, floor_times_zero. lia.
  - pose proof (floor_times_range r (Z.of_nat (length chosenSet) - 1) Hr). lia.
Qed.

Lemma element_in chosenSet r :
  unit_draw r -> (1 <= length chosenSet)%nat ->
  exists text,
    Messages.element chosenSet (Messages.message_index chosenSet r) = Some text
    /\ In text chosenSet.
Proof.
  intros Hr Hlen.
  destruct (message_index_range chosenSet r Hr Hlen) as (Hlo & Hhi & _).
  unfold Messages.element.
  destruct (Z.ltb_spec (Messages.message_index chosenSet r) 0); [lia|].
  destruct (lookup_lt_is_Some_2 chosenSet
              (Z.to_nat (Messages.message_index chosenSet r))) as [text Htext];
    [lia|].
  exists text. split; [exact Htext|].
  apply list_elem_of_In. now apply list_elem_of_lookup_2 in Htext.
Qed.

(** C6. The message is drawn at the index [floor( r * (length - 1) )]: in a
    set of two or more distinct strings no draw reaches the last string,
    which is therefore chosen with probability zero and not with that of
    the others. *)
Theorem last_message_never_chosen (chosenSet : list string) r :
  unit_draw r ->
  (2 <= length chosenSet)%nat ->
  NoDup chosenSet ->
  Messages.element chosenSet (Messages.message_index chosenSet r)
  <> last chosenSet.
Proof.
  intros Hr Hlen Hnodup Hlast.
  destruct (message_index_range chosenSet r Hr) as (Hlo & _ & Hhi); [lia|].
  specialize (Hhi Hlen).
  unfold Messages.element in Hlast.
  destruct (Z.ltb_spec (Messages.message_index chosenSet r) 0); [lia|].
  rewrite last_lookup in Hlast.
  destruct (lookup_lt_is_Some_2 chosenSet
              (Z.to_nat (Messages.message_index chosenSet r))) as [text Htext];
    [lia|].
  rewrite Htext in Hlast. symmetry in Hlast.
  pose proof (NoDup_lookup _ _ _ _ Hnodup Htext Hlast). lia.
Qed.

Lemma last_message_never_chosen_witness :
  Messages.element ["How is"; "Why is"]
    (Messages.message_index ["How is"; "Why is"] (99 # 100))
  <> Some "Why is".
Proof.
  apply (last_message_never_chosen ["How is"; "Why is"] (99 # 100)).
  - split; [discriminate | reflexivity].
  - cbn. lia.
  - apply (bool_decide_unpack _). vm_compute. reflexivity.
Defined.

Lemma bind_random {B} (k : Q -> M B) w :
  bind Math_random k w = k (entropy w O) (set_entropy (fun n => entropy w (S n)) w).
Proof. reflexivity. Qed.

Lemma assigned_in {V} (l : list (string * V)) name v :
  Messages.assigned l name = Some v -> In v (map snd l).
Proof.
  induction l as [|[k x] l IH]; cbn [Messages.assigned map]; [discriminate|].
  destruct (Messages.assigned l name) eqn:E.
  - intros [= <-]. right. now apply IH.
  - destruct (String.eqb k name); [|discriminate]. intros [= <-]. now left.
Qed.

Lemma assigned_key {V} (l : list (string * V)) name :
  In name (map fst l) -> Messages.assigned l name <> None.
Proof.
  induction l as [|[k x] l IH]; cbn [Messages.assigned map fst]; [intros []|].
  intros [-> | Hin].
  - destruct (Messages.assigned l name); [discriminate|].
    now rewrite String.eqb_refl.
  - specialize (IH Hin).
    destruct (Messages.assigned l name); [discriminate|congruence].
Qed.

Section Registry.
Context `{Operations} `{Helpers}.

(** What distinct names give. *)
Lemma distinct_names :
  registry_distinct ->
  SELF <> MINUS /\ SELF <> PLUS /\ RANDOM <> SELF /\ REALLYRANDOM <> SELF
  /\ REALLYRANDOM <> RANDOM
  /\ ~ In RANDOM [PLUS; MINUS; SELF; EQUAL]
  /\ ~ In REALLYRANDOM [PLUS; MINUS; SELF; EQUAL].
Proof.
  unfold registry_distinct. intros Hd.
  repeat (apply NoDup_cons in Hd as [? Hd]).
  repeat match goal with
         | Hnotin : _ ∉ _ :: _ |- _ => rewrite !not_elem_of_cons in Hnotin
         end.
  cbn [In]. intuition congruence.
Qed.

(** Every family of pools weighs 101, and none of its sets is empty. *)
Lemma family_shape sets :
  In sets (map snd Messages.messages) ->
  Messages.totalProbability sets = 101
  /\ forall s, In s sets -> (1 <= length (Messages.set s))%nat.
Proof.
  cbn [map snd Messages.messages In].
  intros [<-|[<-|[<-|[<-|[<-|[<-|[]]]]]]]; (split; [reflexivity|]);
    intros s [<-|[<-|[]]]; cbn; lia.
Qed.

Lemma format_of_returned operation :
  is_returned (Messages.format_of operation) = true
  <-> In operation [PLUS; MINUS; SELF; EQUAL].
Proof.
  unfold Messages.format_of. cbn [In].
  destruct (String.eqb_spec operation MINUS) as [->|N1]; cbn [orb].
  { cbn. tauto. }
  destruct (String.eqb_spec operation PLUS) as [->|N2]; cbn [orb].
  { cbn. tauto. }
  destruct (String.eqb_spec operation SELF) as [->|N3].
  { cbn. tauto. }
  destruct (String.eqb_spec operation EQUAL) as [->|N4].
  { cbn. tauto. }
  cbn. split; [discriminate|]. intros [E|[E|[E|[E|[]]]]]; congruence.
Qed.

Lemma format_of_thrown operation :
  ~ In operation [PLUS; MINUS; SELF; EQUAL] ->
  Messages.format_of operation
  = Thrown (JsError ("Invalid operation: " +:+ operation)).
Proof.
  intros Hnot. unfold Messages.format_of. cbn [In] in Hnot.
  destruct (String.eqb_spec operation MINUS) as [->|N1]; [tauto|].
  destruct (String.eqb_spec operation PLUS) as [->|N2]; [tauto|].
  destruct (String.eqb_spec operation SELF) as [->|N3]; [tauto|].
  destruct (String.eqb_spec operation EQUAL) as [->|N4]; [tauto|].
  reflexivity.
Qed.

(** An operation outside the four kinds: thrown by the [switch], before
    anything is drawn. *)
Lemma getRandomMessage_invalid operation item score tempScore w :
  ~ In operation [PLUS; MINUS; SELF; EQUAL] ->
  Messages.getRandomMessage operation item score tempScore w
  = (Thrown (JsError ("Invalid operation: " +:+ operation)), w).
Proof.
  intros Hnot. unfold Messages.getRandomMessage.
  now rewrite (format_of_thrown _ Hnot).
Qed.

(** One of the four kinds, and a first draw in [0, 1): a message is
    composed from the format of the kind and a set of its pools. *)
Lemma getRandomMessage_composes operation item score tempScore w :
  In operation [PLUS; MINUS; SELF; EQUAL] ->
  unit_draw (entropy w O) ->
  exists format sets s,
    Messages.format_of operation = Returned format
    /\ Messages.messages_at operation = Some sets
    /\ In s sets
    /\ Messages.getRandomMessage operation item score tempScore w
       = (Returned
            (Messages.compose format (maybeLinkItem item)
               (default 0 score) (default 0 tempScore)
               (if isPlural (default 0 score) then "s" else "")
               (default "undefined"
                  (Messages.element (Messages.set s)
                     (Messages.message_index (Messages.set s) (entropy w 1%nat))))),
          set_entropy (fun n => entropy w (S (S n))) w).
Proof.
  intros Hop Hdraw.
  destruct (Messages.format_of operation) as [format|e] eqn:Hformat.
  2:{ apply format_of_returned in Hop. rewrite Hformat in Hop. discriminate. }
  destruct (Messages.messages_at operation) as [sets|] eqn:Hsets.
  2:{ exfalso. revert Hsets. apply assigned_key.
      cbn [map fst Messages.messages In]. cbn [In] in Hop. tauto. }
  destruct (family_shape sets (assigned_in _ _ _ Hsets)) as [Htotal _].
  destruct (chooseSet_finds sets (floor_times (entropy w O) 101))
    as (s & rest & Hin & Hchoose).
  { rewrite Htotal. apply floor_times_range; [exact Hdraw | lia]. }
  exists format, sets, s. repeat split; try assumption.
  unfold Messages.getRandomMessage.
  rewrite Hformat, Hsets, bind_random, Htotal, Hchoose, bind_random.
  reflexivity.
Qed.

(** C10. [getRandomMessage] throws exactly when the operation is none of
    plus, minus, self and equal. Under the names of the random and really
    random kinds, pools are assigned in [messages], and the call throws
    all the same. *)
Theorem getRandomMessage_throws_iff operation item score tempScore w :
  unit_draw (entropy w O) ->
  ((exists e,
      fst (Messages.getRandomMessage operation item score tempScore w) = Thrown e)
   <-> ~ In operation [PLUS; MINUS; SELF; EQUAL])
  /\ (registry_distinct ->
      Messages.messages_at RANDOM = Some Messages.self_messages
      /\ Messages.messages_at REALLYRANDOM = Some Messages.self_messages
      /\ fst (Messages.getRandomMessage RANDOM item score tempScore w)
         = Thrown (JsError ("Invalid operation: " +:+ RANDOM))
      /\ fst (Messages.getRandomMessage REALLYRANDOM item score tempScore w)
         = Thrown (JsError ("Invalid operation: " +:+ REALLYRANDOM))).
Proof.
  intros Hdraw. split.
  - split.
    + intros [e He] Hop.
      destruct (getRandomMessage_composes operation item score tempScore w Hop Hdraw)
        as (format & sets & s & _ & _ & _ & E).
      rewrite E in He. discriminate.
    + intros Hnot. eexists. now rewrite (getRandomMessage_invalid _ _ _ _ _ Hnot).
  - intros Hd.
    destruct (distinct_names Hd) as (_ & _ & _ & _ & Hrr & Hrandom & Hreally).
    repeat split.
    + unfold Messages.messages_at, Messages.messages. cbn [Messages.assigned].
      rewrite (proj2 (String.eqb_neq _ _) Hrr). now rewrite String.eqb_refl.
    + unfold Messages.messages_at, Messages.messages. cbn [Messages.assigned].
      now rewrite String.eqb_refl.
    + now rewrite (getRandomMessage_invalid _ _ _ _ _ Hrandom).
    + now rewrite (getRandomMessage_invalid _ _ _ _ _ Hreally).
Qed.

End Registry.

Lemma example_registry_distinct : @registry_distinct example_registry.
Proof. apply (bool_decide_unpack _). vm_compute. reflexivity. Qed.

Lemma getRandomMessage_throws_iff_witness :
  fst (@Messages.getRandomMessage example_registry (example_helpers [])
         "random" "U024BE7LH" (Some 5) (Some 2) (fresh_world None 1000 (1 # 2)))
  = Thrown (JsError "Invalid operation: random").
Proof.
  refine (proj1 (proj2 (proj2
    (proj2 (@getRandomMessage_throws_iff example_registry (example_helpers [])
              "random" "U024BE7LH" (Some 5) (Some 2)
              (fresh_world None 1000 (1 # 2)) _)
       example_registry_distinct)))).
  split; [discriminate | reflexivity].
Defined.

(** ** The dispatcher *)

Section Dispatcher.
Context `{Operations} `{Helpers}.

(** Composing a message consumes draws and touches nothing else. *)
Lemma getRandomMessage_frame operation item score tempScore w :
  exists e,
    snd (Messages.getRandomMessage operation item score tempScore w)
    = set_entropy e w.
Proof.
  unfold Messages.getRandomMessage. destruct w as [m c e s u l o p].
  destruct (Messages.format_of operation); [|now exists e].
  destruct (Messages.messages_at operation); [|now exists e].
  rewrite bind_random.
  destruct (Messages.chooseSet _ _) as [[chosen|] rest]; eexists; reflexivity.
Qed.

Lemma format_of_SELF :
  registry_distinct -> Messages.format_of SELF = Returned Messages.format_self.
Proof.
  intros Hd. destruct (distinct_names Hd) as (N1 & N2 & _).
  unfold Messages.format_of.
  rewrite (proj2 (String.eqb_neq _ _) N1), (proj2 (String.eqb_neq _ _) N2).
  now rewrite String.eqb_refl.
Qed.

Lemma messages_at_SELF :
  registry_distinct -> Messages.messages_at SELF = Some Messages.self_messages.
Proof.
  intros Hd. destruct (distinct_names Hd) as (_ & _ & N3 & N4 & _).
  unfold Messages.messages_at, Messages.messages. cbn [Messages.assigned].
  rewrite (proj2 (String.eqb_neq _ _) N3), (proj2 (String.eqb_neq _ _) N4).
  now rewrite String.eqb_refl.
Qed.

(** An entry whose item and quantity are truthy is dispatched, and the loop
    goes on with the entries after it. *)
Lemma message_loop_valid ev e rest target amount w :
  Events.truthy_string (item e) = Some target ->
  Events.truthy_number (quantity e) = Some amount ->
  Events.message_loop ev (e :: rest) w
  = bind (Events.dispatch ev target amount (cats e))
      (fun _ => Events.message_loop ev rest) w.
Proof. intros Hi Hq. cbn [Events.message_loop]. now rewrite Hi, Hq. Qed.

(** [handleSelfPlus] consumes draws and hands one message to the gateway,
    or throws; either way the tables, the clock and the started calls are
    as they were. *)
Lemma handleSelfPlus_frame user channel w :
  let w' := snd (Events.handleSelfPlus user channel w) in
  pending w' = pending w /\ scores w' = scores w /\ ledger w' = ledger w
  /\ usertracker w' = usertracker w /\ clock w' = clock w.
Proof.
  unfold Events.handleSelfPlus, Events.slack, bind.
  destruct (getRandomMessage_frame SELF user None None w) as [e E].
  destruct (Messages.getRandomMessage SELF user None None w) as [[message|err] w2];
    cbn [snd] in E; subst w2; cbn; repeat split.
Qed.

(** A message whose entries all target its author: whatever their number
    and wherever the loop stops, no call is started and the tables and the
    clock are as they were. *)
Lemma self_targets_leave_tables ev data : forall w,
  Forall (fun e => item e = Some (Events.user ev)) data ->
  let w' := snd (Events.message_loop ev data w) in
  pending w' = pending w /\ scores w' = scores w /\ ledger w' = ledger w
  /\ usertracker w' = usertracker w /\ clock w' = clock w.
Proof.
  induction data as [|e data IH]; intros w Hself; [cbn; repeat split|].
  inversion Hself as [|? ? He Hrest]; subst.
  cbn [Events.message_loop]. rewrite He.
  destruct (Events.truthy_string (Some (Events.user ev))) as [target|] eqn:Et;
    [|cbn; repeat split].
  assert (target = Events.user ev) as ->.
  { destruct (Events.user ev); cbn in Et; congruence. }
  destruct (Events.truthy_number (quantity e)) as [amount|]; [|cbn; repeat split].
  unfold bind, Events.dispatch. rewrite String.eqb_refl.
  pose proof (handleSelfPlus_frame (Events.user ev) (Events.channel ev) w) as Hframe.
  cbv zeta in Hframe.
  destruct (Events.handleSelfPlus (Events.user ev) (Events.channel ev) w)
    as [[[]|err] w1]; cbn [snd] in Hframe |- *.
  - specialize (IH w1 Hrest). cbv zeta in IH.
    destruct Hframe as (E1 & E2 & E3 & E4 & E5), IH as (I1 & I2 & I3 & I4 & I5).
    repeat split; congruence.
  - exact Hframe.
Qed.

(** An author other than ['ULJ7NNS8H'] starts crediting calls only. *)
Lemma dispatch_credits_only ev target amount cats w :
  Events.user ev <> "ULJ7NNS8H" ->
  Events.credits_only (pending w) ->
  Events.credits_only (pending (snd (Events.dispatch ev target amount cats w))).
Proof.
  intros Huser Hcredits. unfold Events.dispatch.
  destruct (String.eqb target (Events.user ev)).
  - destruct (handleSelfPlus_frame (Events.user ev) (Events.channel ev) w)
      as [-> _]. exact Hcredits.
  - unfold Events.start. rewrite bind_modify.
    rewrite (proj2 (String.eqb_neq _ _) Huser), andb_false_r.
    cbn [snd ret pending set_pending]. unfold Events.credits_only.
    apply Forall_app. split; [exact Hcredits|].
    constructor; [reflexivity | constructor].
Qed.

Lemma message_loop_credits_only ev data : forall w,
  Events.user ev <> "ULJ7NNS8H" ->
  Events.credits_only (pending w) ->
  Events.credits_only (pending (snd (Events.message_loop ev data w))).
Proof.
  induction data as [|e data IH]; intros w Huser Hcredits; [exact Hcredits|].
  cbn [Events.message_loop].
  destruct (Events.truthy_string (item e)) as [target|]; [|exact Hcredits].
  destruct (Events.truthy_number (quantity e)) as [amount|]; [|exact Hcredits].
  pose proof (dispatch_credits_only ev target amount (cats e) w Huser Hcredits)
    as Hstep.
  unfold bind.
  destruct (Events.dispatch ev target amount (cats e) w) as [[[]|err] w1];
    cbn [snd] in Hstep |- *; [now apply IH | exact Hstep].
Qed.

(** C4. A command whose target is the acting user is answered by
    [handleSelfPlus] and by nothing else: one [sendMessage] leaves for the
    channel, no [handlePlusMinus] is started (so no rate-limit evaluation
    and no score update follow), the clock is not read, and the score
    tables and the usertracker table are as they were. With distinct names
    in the registry the reply is composed from the format and the pools of
    the self kind. *)
Theorem self_target_reply_only ev item quantity cats w :
  item = Events.user ev ->
  unit_draw (entropy w 0%nat) -> unit_draw (entropy w 1%nat) ->
  let r := Events.dispatch ev item quantity cats w in
  exists message,
    fst r = Returned tt
    /\ outbox (snd r) = (outbox w ++ [sendMessage message (Events.channel ev)])%list
    /\ pending (snd r) = pending w
    /\ scores (snd r) = scores w
    /\ ledger (snd r) = ledger w
    /\ usertracker (snd r) = usertracker w
    /\ clock (snd r) = clock w
    /\ (registry_distinct ->
        exists text,
          In text (Messages.texts Messages.self_messages)
          /\ message = Messages.compose Messages.format_self
                         (maybeLinkItem (Events.user ev)) 0 0
                         (if isPlural 0 then "s" else "") text).
Proof.
  intros -> Hdraw0 Hdraw1 r. unfold r, Events.dispatch, Events.handleSelfPlus.
  rewrite String.eqb_refl.
  destruct (getRandomMessage_composes SELF (Events.user ev) None None w)
    as (format & sets & s & Hformat & Hsets & Hin & E);
    [cbn [In]; tauto | exact Hdraw0 |].
  destruct (family_shape sets (assigned_in _ _ _ Hsets)) as [_ Hlen].
  destruct (element_in (Messages.set s) (entropy w 1%nat) Hdraw1 (Hlen s Hin))
    as (text & Htext & Hintext).
  rewrite Htext in E. cbn [default] in E.
  rewrite (bind_returned _ _ _ _ _ E).
  eexists. repeat split.
  intros Hd. exists text.
  rewrite (format_of_SELF Hd) in Hformat. injection Hformat as <-.
  rewrite (messages_at_SELF Hd) in Hsets. injection Hsets as <-.
  split; [|reflexivity].
  unfold Messages.texts. apply in_concat. exists (Messages.set s).
  split; [now apply in_map | exact Hintext].
Qed.

(** C5, as the code has it. For a command whose target is not the acting
    user a crediting [handlePlusMinus] is started, and a debiting one with
    the [cats] count after it exactly when that count is positive and the
    acting user is ['ULJ7NNS8H']; the state of the process, its
    configuration included, has no part in it. A message of any other
    author, whatever its entries, starts crediting calls only. *)
Theorem compensating_decrement_is_hard_coded ev item quantity cats w :
  item <> Events.user ev ->
  let r := Events.dispatch ev item quantity cats w in
  let credit := handlePlusMinus_call item Plus quantity
                  (Events.channel ev) (Events.user ev) (Events.ts ev) in
  let debit := handlePlusMinus_call item Minus (default 0 cats)
                 (Events.channel ev) (Events.user ev) (Events.ts ev) in
  fst r = Returned tt
  /\ (Events.positive_number cats = true /\ Events.user ev = "ULJ7NNS8H" ->
      pending (snd r) = (pending w ++ [credit; debit])%list)
  /\ (~ (Events.positive_number cats = true /\ Events.user ev = "ULJ7NNS8H") ->
      pending (snd r) = (pending w ++ [credit])%list)
  /\ (Events.user ev <> "ULJ7NNS8H" ->
      forall data w',
        Events.credits_only (pending w') ->
        Events.credits_only (pending (snd (Events.message_loop ev data w')))).
Proof.
  intros Hother r credit debit.
  assert (Hloop : Events.user ev <> "ULJ7NNS8H" ->
                  forall data w',
                    Events.credits_only (pending w') ->
                    Events.credits_only
                      (pending (snd (Events.message_loop ev data w')))).
  { intros Huser data w'. now apply message_loop_credits_only. }
  unfold r, Events.dispatch, Events.start.
  rewrite (proj2 (String.eqb_neq _ _) Hother), bind_modify.
  destruct (Events.positive_number cats) eqn:Hcats;
    destruct (String.eqb_spec (Events.user ev) "ULJ7NNS8H") as [Huser|Huser];
    cbn [andb fst snd modify ret pending set_pending];
    (split; [reflexivity|]); (split; [|split; [|exact Hloop]]);
    try (intros [? ?]; congruence); try tauto; intros _;
    now rewrite <- ?app_assoc.
Qed.

(** [handlePlusMinus] after the limiter's answer leaves the usertracker
    table alone. *)
Lemma handlePlusMinus_checked_usertracker check item operation quantity
    channel userInit ts w :
  usertracker (snd (Events.handlePlusMinus_checked check item operation quantity
                      channel userInit ts w))
  = usertracker w.
Proof.
  unfold Events.handlePlusMinus_checked, Events.slack.
  destruct check; [|reflexivity].
  unfold bind at 1. unfold ScoreStore.updateScore at 1.
  set (w1 := set_ledger _ w). set (score := (_, _)).
  destruct (getRandomMessage_frame (getOperationName operation) item
              (Some (fst score)) (Some (snd score)) w1) as [e E].
  unfold bind.
  destruct (Messages.getRandomMessage _ _ _ _ w1) as [[message|err] w2];
    cbn [snd] in E; subst w2; reflexivity.
Qed.

(** C7. The limiter is called with the quantity as a second argument that
    its one parameter does not receive. Its answer and the state it leaves,
    the record it has written included, are fixed before the quantity is
    looked at: [handlePlusMinus] is that evaluation followed by what the
    answer commands, and the usertracker table at its end is the one the
    evaluation left. *)
Theorem rate_limit_ignores_magnitude userInit w :
  exists (answer : outcome bool) (w' : world),
    forall quantity : Z,
      Events.points_checkCanUpdate userInit quantity w = (answer, w')
      /\ forall item operation channel ts,
           let r := Events.handlePlusMinus item operation quantity
                      channel userInit ts w in
           r = match answer with
               | Returned check =>
                   Events.handlePlusMinus_checked check item operation quantity
                     channel userInit ts w'
               | Thrown e => (Thrown e, w')
               end
           /\ usertracker (snd r) = usertracker w'.
Proof.
  exists (fst (Points.checkCanUpdate userInit w)),
         (snd (Points.checkCanUpdate userInit w)).
  intros quantity. unfold Events.points_checkCanUpdate.
  split; [now destruct (Points.checkCanUpdate userInit w)|].
  intros item operation channel ts. cbv zeta.
  unfold Events.handlePlusMinus, bind, Events.points_checkCanUpdate.
  destruct (Points.checkCanUpdate userInit w) as [[check|e] w']; cbn [fst snd].
  - split; [reflexivity | apply handlePlusMinus_checked_usertracker].
  - split; reflexivity.
Qed.

(** C9. The first entry whose item or quantity is falsy ends
    [handlers.message] with [false]: the entries before it have been
    dispatched, those after it are not looked at. *)
Theorem message_stops_at_first_invalid_entry ev before bad after w :
  extractPlusMinusEventData (Events.text ev) = (before ++ bad :: after)%list ->
  Forall Events.valid before ->
  ~ Events.valid bad ->
  snd (Events.handlers_message ev w) = snd (Events.message_loop ev before w)
  /\ (is_returned (fst (Events.message_loop ev before w)) = true ->
      fst (Events.handlers_message ev w) = Returned false).
Proof.
  intros Hdata Hvalid Hbad. unfold Events.handlers_message. rewrite Hdata.
  clear Hdata. revert w.
  induction Hvalid as [|e before [Hi Hq] _ IH]; intros w.
  - cbn [app Events.message_loop]. unfold Events.valid in Hbad.
    destruct (Events.truthy_string (item bad)) as [i|];
      destruct (Events.truthy_number (quantity bad)) as [q|];
      try (split; reflexivity).
    exfalso. apply Hbad. split; discriminate.
  - destruct (Events.truthy_string (item e)) as [i|] eqn:Ei; [|congruence].
    destruct (Events.truthy_number (quantity e)) as [q|] eqn:Eq; [|congruence].
    cbn [app].
    rewrite !(message_loop_valid _ _ _ _ _ _ Ei Eq). unfold bind.
    destruct (Events.dispatch ev i q (cats e) w) as [[[]|err] w'].
    + apply IH.
    + split; [reflexivity | discriminate].
Qed.

End Dispatcher.

(** ** The theorems at a deployment *)

Lemma self_target_reply_only_witness :
  let ev := Events.Event "U024BE7LH" "C2147483705" "1355517523.000005"
              "<@U024BE7LH>++" in
  let w := fresh_world (Some 3) 1000 (1 # 2) in
  let r := @Events.dispatch example_registry (example_helpers [])
             ev "U024BE7LH" 1 None w in
  exists message,
    fst r = Returned tt
    /\ outbox (snd r) = [sendMessage message "C2147483705"]
    /\ pending (snd r) = []
    /\ usertracker (snd r) = ∅.
Proof.
  destruct (@self_target_reply_only example_registry (example_helpers [])
              (Events.Event "U024BE7LH" "C2147483705" "1355517523.000005"
                 "<@U024BE7LH>++")
              "U024BE7LH" 1 None (fresh_world (Some 3) 1000 (1 # 2)))
    as (message & Hret & Hout & Hpending & _ & _ & Htracker & _).
  - reflexivity.
  - split; [discriminate | reflexivity].
  - split; [discriminate | reflexivity].
  - exists message. repeat split; assumption.
Defined.

Lemma compensating_decrement_is_hard_coded_witness :
  let ev := Events.Event "ULJ7NNS8H" "C2147483705" "1355517523.000005"
              "<@U0LAN0Z89> :taco: :cat: :cat:" in
  pending (snd (@Events.dispatch example_registry (example_helpers [])
                  ev "U0LAN0Z89" 1 (Some 2) (fresh_world None 1000 (1 # 2))))
  = [ handlePlusMinus_call "U0LAN0Z89" Plus 1
        "C2147483705" "ULJ7NNS8H" "1355517523.000005";
      handlePlusMinus_call "U0LAN0Z89" Minus 2
        "C2147483705" "ULJ7NNS8H" "1355517523.000005" ].
Proof.
  refine (proj1 (proj2
    (@compensating_decrement_is_hard_coded example_registry (example_helpers [])
       (Events.Event "ULJ7NNS8H" "C2147483705" "1355517523.000005"
          "<@U0LAN0Z89> :taco: :cat: :cat:")
       "U0LAN0Z89" 1 (Some 2) (fresh_world None 1000 (1 # 2)) _)) _).
  - discriminate.
  - split; reflexivity.
Defined.

(** C5, as the claim states it, fails: nothing is configured (no variable of
    the environment is set), the message credits one user, and the message
    handler starts a debiting call because its author is ['ULJ7NNS8H'] and a
    [cats] count came with the entry. *)
Lemma privileged_actor_debits_with_nothing_configured :
  ~ Events.credits_only
      (pending (snd (@Events.handlers_message example_registry
                       (example_helpers [Entry (Some "U0LAN0Z89") (Some 1) (Some 1)])
                       (Events.Event "ULJ7NNS8H" "C2147483705"
                          "1355517523.000005" "<@U0LAN0Z89> :taco: :cat:")
                       (fresh_world None 1000 (1 # 2))))).
Proof.
  intros Hcredits. vm_compute in Hcredits.
  apply Forall_cons in Hcredits as [_ Hcredits].
  apply Forall_cons in Hcredits as [Hdebit _].
  discriminate Hdebit.
Qed.

Lemma message_stops_at_first_invalid_entry_witness :
  let data := [ Entry (Some "U0LAN0Z89") (Some 1) None;
                Entry None (Some 1) None;
                Entry (Some "U061F7AUR") (Some 1) None ] in
  let r := @Events.handlers_message example_registry (example_helpers data)
             (Events.Event "U024BE7LH" "C2147483705" "1355517523.000005"
                "<@U0LAN0Z89> <@U061F7AUR> :taco:")
             (fresh_world (Some 3) 1000 (1 # 2)) in
  fst r = Returned false
  /\ pending (snd r)
     = [ handlePlusMinus_call "U0LAN0Z89" Plus 1
           "C2147483705" "U024BE7LH" "1355517523.000005" ].
Proof.
  destruct (@message_stops_at_first_invalid_entry example_registry
              (example_helpers [ Entry (Some "U0LAN0Z89") (Some 1) None;
                                 Entry None (Some 1) None;
                                 Entry (Some "U061F7AUR") (Some 1) None ])
              (Events.Event "U024BE7LH" "C2147483705" "1355517523.000005"
                 "<@U0LAN0Z89> <@U061F7AUR> :taco:")
              [Entry (Some "U0LAN0Z89") (Some 1) None]
              (Entry None (Some 1) None)
              [Entry (Some "U061F7AUR") (Some 1) None]
              (fresh_world (Some 3) 1000 (1 # 2)))
    as [Hworld Hresult].
  - reflexivity.
  - constructor; [split; discriminate | constructor].
  - intros [Hitem _]. now apply Hitem.
  - split.
    + apply Hresult. reflexivity.
    + cbv zeta. rewrite Hworld. reflexivity.
Defined.

(** The scenario of the specification, in the schedule where the started
    call runs alone: [U024BE7LH] credits [U0LAN0Z89] once; the limiter counts
    one operation, the record of the target is [(1, 1)] and a threaded reply
    names the target and its score. *)
Example credit_end_to_end :
  let data := [Entry (Some "U0LAN0Z89") (Some 1) None] in
  let ev := Events.Event "U024BE7LH" "C2147483705" "1355517523.000005"
              "<@U0LAN0Z89>++" in
  let r := @Events.handlers_message example_registry (example_helpers data) ev
             (fresh_world (Some 3) 1000 (1 # 2)) in
  let w := @Events.settle example_registry (example_helpers data) (snd r) in
  fst r = Returned true
  /\ usertracker w !! "u024be7lh" = Some (1, 1000)
  /\ ledger w !! "u0lan0z89" = Some (1, 1)
  /\ outbox w
     = [ sendThreadMessage ":dance_pig: *<@U0LAN0Z89>* has 1 :taco:. (1 total)"
           "C2147483705" "1355517523.000005" ].
Proof. vm_compute. repeat split. Qed.

(** The debit of the privileged actor, run to its end: the credit and the
    debit both pass the limiter and cancel out in the record of the
    target. *)
Example privileged_debit_end_to_end :
  let data := [Entry (Some "U0LAN0Z89") (Some 1) (Some 1)] in
  let ev := Events.Event "ULJ7NNS8H" "C2147483705" "1355517523.000005"
              "<@U0LAN0Z89> :taco: :cat:" in
  let r := @Events.handlers_message example_registry (example_helpers data) ev
             (fresh_world None 1000 (1 # 2)) in
  let w := @Events.settle example_registry (example_helpers data) (snd r) in
  usertracker w !! "ulj7nns8h" = Some (2, 1000)
  /\ ledger w !! "u0lan0z89" = Some (0, 0)
  /\ length (outbox w) = 2%nat.
Proof. vm_compute. repeat split. Qed.

(** * Further properties of the points module *)

(** One [updateScore]: the score, read as 0 when the item has no record,
    moves by one in the direction of the symbol and is returned. *)
Lemma updateScore_moves item operation w :
  let old := default 0 (scores w !! citext item) in
  int4 (old + signed operation 1) = true ->
  Points.updateScore item operation w
  = (Returned (old + signed operation 1),
     set_scores (<[citext item := old + signed operation 1]> (scores w)) w).
Proof.
  intros old Hfits. unfold Points.updateScore.
  destruct (scores w !! citext item) as [s|] eqn:Hrow; cbn in old; subst old.
  - erewrite bind_query_scores
      by (eapply upsert_conflict;
          [exact Hrow | reflexivity | now destruct operation | exact Hfits]).
    rewrite bind_gets. cbn [scores set_scores].
    rewrite (select_found _ _ (s + signed operation 1)) by apply lookup_insert_eq.
    reflexivity.
  - erewrite bind_query_scores
      by (apply (upsert_free _ _ _ _ _ Hrow); now destruct operation).
    rewrite bind_gets. cbn [scores set_scores].
    rewrite (select_found _ _ (signed operation 1)) by apply lookup_insert_eq.
    now destruct operation.
Qed.

(** Whatever its outcome, an upsert leaves the table as it was or writes
    the row of its key. *)
Lemma upsert_outcome {V} (fits : V -> bool) key row f (t : gmap string V) :
  (exists e, upsert fits key row f t = Thrown e)
  \/ (exists v, upsert fits key row f t = Returned (<[citext key := v]> t)).
Proof.
  unfold upsert. destruct (fits row); cbn [negb]; [|left; eauto].
  destruct (t !! citext key) as [old|]; [|right; eauto].
  destruct (fits (f old)); [right | left]; eauto.
Qed.

(** X1. Items that differ by the case of their letters are one item: the
    score an [updateScore] under one spelling returns is the score
    [getScore] reads under the other. *)
Theorem score_is_shared_across_letter_case item item' operation operation' w :
  citext item' = citext item ->
  let r := Points.updateScore item operation w in
  let new := default 0 (scores w !! citext item) + signed operation 1 in
  int4 new = true ->
  fst r = Returned new
  /\ Points.getScore item' operation' (snd r) = (Returned new, snd r).
Proof.
  intros Hsame r new Hfits. unfold r.
  rewrite (updateScore_moves item operation w Hfits). cbn [fst snd].
  split; [reflexivity|].
  apply getScore_with_record. cbn [scores set_scores].
  rewrite Hsame. apply lookup_insert_eq.
Qed.

Lemma score_is_shared_across_letter_case_witness :
  let r := Points.updateScore "Sriracha" Plus (fresh_world None 1000 0) in
  fst r = Returned 1
  /\ Points.getScore "SRIRACHA" Plus (snd r) = (Returned 1, snd r).
Proof.
  apply (score_is_shared_across_letter_case "Sriracha" "SRIRACHA" Plus Plus
           (fresh_world None 1000 0)).
  - reflexivity.
  - reflexivity.
Defined.

(** An [updateScore] is refused and changes nothing, or writes the score it
    returns into the row of its item. *)
Lemma updateScore_outcome item operation w :
  (exists e, Points.updateScore item operation w = (Thrown e, w))
  \/ (exists v, Points.updateScore item operation w
                = (Returned v, set_scores (<[citext item := v]> (scores w)) w)).
Proof.
  unfold Points.updateScore.
  destruct (upsert_outcome Points.fits_score item (signed operation 1)
              (fun score => score + signed operation 1) (scores w))
    as [[e E] | [v E]].
  - left. exists e. unfold bind, Points.query_scores. now rewrite E.
  - right. exists v. erewrite bind_query_scores by exact E.
    rewrite bind_gets. cbn [scores set_scores].
    now rewrite (select_found _ _ v) by apply lookup_insert_eq.
Qed.

(** X2. [updateScore] on one item, whether it succeeds or is refused,
    leaves the record of every other item and everything outside the
    [scores] table as they were. *)
Theorem updateScore_leaves_other_items item operation other w :
  citext other <> citext item ->
  let w' := snd (Points.updateScore item operation w) in
  scores w' !! citext other = scores w !! citext other
  /\ usertracker w' = usertracker w /\ ledger w' = ledger w
  /\ outbox w' = outbox w /\ pending w' = pending w /\ clock w' = clock w.
Proof.
  intros Hother w'. unfold w'.
  destruct (updateScore_outcome item operation w) as [[e ->] | [v ->]];
    cbn [snd scores set_scores]; (split; [|repeat split]).
  - reflexivity.
  - apply lookup_insert_ne. congruence.
Qed.

Lemma updateScore_leaves_other_items_witness :
  let w := set_scores {[ "sriracha" := 7 ]} (fresh_world None 1000 0) in
  scores (snd (Points.updateScore "Tabasco" Minus w)) !! "sriracha" = Some 7.
Proof.
  refine (proj1 (updateScore_leaves_other_items "Tabasco" Minus "Sriracha"
                   (set_scores {[ "sriracha" := 7 ]} (fresh_world None 1000 0)) _)).
  discriminate.
Defined.

Lemma balance_bound operations :
  Z.abs (Points.balance operations) <= Z.of_nat (length operations).
Proof.
  induction operations as [|operation operations IH]; [cbn; lia|].
  cbn [Points.balance fold_right length]. fold (Points.balance operations).
  destruct operation; cbn [signed]; lia.
Qed.

Lemma apply_each_score operations : forall item w,
  Z.abs (default 0 (scores w !! citext item)) + Z.of_nat (length operations)
    <= 2147483647 ->
  (operations = [] \/ is_Some (scores (Points.apply_each operations item w) !! citext item))
  /\ default 0 (scores (Points.apply_each operations item w) !! citext item)
     = default 0 (scores w !! citext item) + Points.balance operations.
Proof.
  induction operations as [|operation operations IH]; intros item w Hroom.
  - cbn [Points.apply_each Points.balance fold_right]. split; [now left | lia].
  - cbn [Points.apply_each Points.balance fold_right length] in *.
    fold (Points.balance operations).
    rewrite updateScore_moves by (apply int4_spec; destruct operation; cbn [signed]; lia).
    cbn [snd]. set (w1 := set_scores _ w).
    assert (H1 : scores w1 !! citext item
                 = Some (default 0 (scores w !! citext item) + signed operation 1)).
    { unfold w1. cbn [scores set_scores]. apply lookup_insert_eq. }
    assert (D1 : default 0 (scores w1 !! citext item)
                 = default 0 (scores w !! citext item) + signed operation 1)
      by now rewrite H1.
    destruct (IH item w1) as [Hsome Hval].
    { rewrite D1. destruct operation; cbn [signed]; lia. }
    split.
    + right. destruct Hsome as [->|Hsome]; [|exact Hsome].
      cbn [Points.apply_each]. rewrite H1. eauto.
    + rewrite Hval, D1. lia.
Qed.

(** X3. After any run of [updateScore] calls on an item that had no record,
    one call after the other, the score is the number of pluses less the
    number of minuses. *)
Theorem score_is_pluses_less_minuses operations item operation w :
  scores w !! citext item = None ->
  operations <> [] ->
  Z.of_nat (length operations) <= 2147483647 ->
  let w' := Points.apply_each operations item w in
  Points.getScore item operation w' = (Returned (Points.balance operations), w').
Proof.
  intros Hfresh Hsome Hlen w'.
  destruct (apply_each_score operations item w) as [Hrow Hval].
  { rewrite Hfresh. cbn. lia. }
  destruct Hrow as [->|[score Hscore]]; [congruence|].
  fold w' in Hscore, Hval. rewrite Hscore, Hfresh in Hval. cbn in Hval. subst score.
  now apply getScore_with_record.
Qed.

Lemma score_is_pluses_less_minuses_witness :
  let w' := Points.apply_each [Plus; Plus; Minus; Plus] "Sriracha"
              (fresh_world None 1000 0) in
  Points.getScore "Sriracha" Plus w' = (Returned 2, w').
Proof.
  apply (score_is_pluses_less_minuses [Plus; Plus; Minus; Plus] "Sriracha" Plus
           (fresh_world None 1000 0)).
  - reflexivity.
  - discriminate.
  - cbn. lia.
Defined.

(** X4. At the end of the INTEGER range the update is refused: a plus on a
    score of 2147483647, or a minus on a score of -2147483648, is rejected
    and the table is left as it was. *)
Theorem updateScore_refused_at_the_bound item operation score w :
  scores w !! citext item = Some score ->
  (operation = Plus /\ score = 2147483647)
  \/ (operation = Minus /\ score = -2147483648) ->
  Points.updateScore item operation w = (Thrown out_of_range, w).
Proof.
  intros Hrow Hbound. unfold Points.updateScore, Points.query_scores.
  unfold bind at 1. unfold upsert. rewrite Hrow.
  destruct Hbound as [[-> ->] | [-> ->]]; reflexivity.
Qed.

Lemma updateScore_refused_at_the_bound_witness :
  let w := set_scores {[ "sriracha" := 2147483647 ]} (fresh_world None 1000 0) in
  Points.updateScore "Sriracha" Plus w = (Thrown out_of_range, w).
Proof.
  apply (updateScore_refused_at_the_bound "Sriracha" Plus 2147483647
           (set_scores {[ "sriracha" := 2147483647 ]} (fresh_world None 1000 0))).
  - reflexivity.
  - left. split; reflexivity.
Defined.

Lemma at_index_lookup {A} (l : list A) (i : Z) :
  0 <= i < Z.of_nat (length l) ->
  exists x, at_index l i = Some x /\ l !! Z.to_nat i = Some x.
Proof.
  intros Hi. unfold at_index.
  destruct (Z.ltb_spec i 0); [lia|].
  destruct (lookup_lt_is_Some_2 l (Z.to_nat i)) as [x Hx]; [lia|].
  exists x. now rewrite Hx.
Qed.

(** The statement of the random updates, for a sign and an amount that
    were found in their arrays. *)
Lemma move_score_moves item operation amount w :
  let old := default 0 (scores w !! citext item) in
  int4 (signed operation amount) = true ->
  int4 (old + signed operation amount) = true ->
  Points.move_score item (Some operation) (Some amount) w
  = (Returned (old + signed operation amount),
     set_scores (<[citext item := old + signed operation amount]> (scores w)) w).
Proof.
  intros old Hrow Hfits. unfold Points.move_score.
  destruct (scores w !! citext item) as [s|] eqn:Hs; cbn in old; subst old.
  - erewrite bind_query_scores
      by (eapply upsert_conflict; [exact Hs | reflexivity | exact Hrow | exact Hfits]).
    rewrite bind_gets. cbn [scores set_scores].
    now rewrite (select_found _ _ (s + signed operation amount))
      by apply lookup_insert_eq.
  - erewrite bind_query_scores by (apply (upsert_free _ _ _ _ _ Hs); exact Hrow).
    rewrite bind_gets. cbn [scores set_scores].
    now rewrite (select_found _ _ (signed operation amount))
      by apply lookup_insert_eq.
Qed.






#[global] Instance higher_total : Total Points.higher.
Proof. intros a b. unfold Points.higher. lia. Qed.

#[global] Instance higher_transitive : Transitive Points.higher.
Proof. intros a b c. unfold Points.higher. lia. Qed.


(** * Further properties of the rate limiter *)

Lemma bind_date {B} (k : Z -> M B) w :
  bind Date_now k w = k (clock w O) (set_clock (fun n => clock w (S n)) w).
Proof. reflexivity. Qed.

(** What an upsert writes. *)
Lemma upsert_written {V} (fits : V -> bool) key row f (t : gmap string V) :
  (exists e, upsert fits key row f t = Thrown e)
  \/ (t !! citext key = None
      /\ upsert fits key row f t = Returned (<[citext key := row]> t))
  \/ (exists old, t !! citext key = Some old
                  /\ upsert fits key row f t = Returned (<[citext key := f old]> t)).
Proof.
  unfold upsert. destruct (fits row); cbn [negb]; [|left; eauto].
  destruct (t !! citext key) as [old|]; [|right; left; eauto].
  destruct (fits (f old)); [right; right | left]; eauto.
Qed.

(** The three ways [decide_and_write] ends, for any clock: rejected by the
    database with the table as it was; denied, inside the window with the
    maximum reached, the table as it was; allowed, with one row written
    whose count is 1 or one more than the count in hand. Nothing but the
    table and the clock changes. *)
Lemma decide_and_write_cases user ops ts w :
  let r := Points.decide_and_write user (ops, ts) w in
  exists t' c,
    snd r = set_usertracker t' (set_clock c w)
    /\ ((exists e, fst r = Thrown e /\ t' = usertracker w)
        \/ (fst r = Returned false /\ t' = usertracker w
            /\ Points.reached ops (MAX_OPS w) = true)
        \/ (exists row,
              fst r = Returned true
              /\ t' = <[citext user := row]> (usertracker w)
              /\ (fst row = 1
                  \/ (Points.reached ops (MAX_OPS w) = false
                      /\ fst row = ops + 1)))).
Proof.
  intros r. unfold r, Points.decide_and_write. rewrite bind_date. cbn [fst snd].
  destruct w as [m c e s u l o p]. cbn [clock].
  destruct (c O - ts <? 3600).
  - rewrite bind_gets. cbn [MAX_OPS set_clock].
    destruct (Points.reached ops m) eqn:Hmax.
    + exists u, (fun n => c (S n)). split; [reflexivity|]. right. left. auto.
    + unfold bind, Points.query_usertracker. cbn [usertracker set_clock].
      destruct (upsert_written Points.fits_tracker user (1, ts)
                  (fun old => (ops + 1, snd old)) u)
        as [[err E] | [[Hnone E] | [old [Hold E]]]]; rewrite E.
      * exists u, (fun n => c (S n)). split; [reflexivity|]. left. eauto.
      * eexists _, (fun n => c (S n)). split; [reflexivity|]. right. right.
        eexists. repeat split. now left.
      * eexists _, (fun n => c (S n)). split; [reflexivity|]. right. right.
        eexists. repeat split. now right.
  - rewrite !bind_date. cbn [clock set_clock].
    unfold bind, Points.query_usertracker. cbn [usertracker set_clock].
    destruct (upsert_written Points.fits_tracker user (1, c 1%nat)
                (fun _ => (1, c 2%nat)) u)
      as [[err E] | [[Hnone E] | [old [Hold E]]]]; rewrite E.
    + exists u, (fun n => c (S (S (S n)))). split; [reflexivity|]. left. eauto.
    + eexists _, (fun n => c (S (S (S n)))). split; [reflexivity|]. right. right.
      eexists. repeat split. now left.
    + eexists _, (fun n => c (S (S (S n)))). split; [reflexivity|]. right. right.
      eexists. repeat split. now left.
Qed.

(** The zero record of a user without one: written when the second read
    fits the INTEGER column, rejected otherwise; two readings of the clock
    are taken. *)
Lemma insert_zero_written user w :
  usertracker w !! citext user = None ->
  Points.insert_zero user w
  = (if Points.fits_tracker (0, clock w O)
     then (Returned tt,
           set_usertracker (<[citext user := (0, clock w O)]> (usertracker w))
             (set_clock (fun n => clock w (S (S n))) w))
     else (Thrown out_of_range, set_clock (fun n => clock w (S (S n))) w)).
Proof.
  intros Hrow. unfold Points.insert_zero. rewrite !bind_date.
  unfold Points.query_usertracker, upsert.
  cbn [usertracker set_clock clock]. rewrite Hrow.
  destruct w as [m c e s u l o p]. cbn.
  now destruct (int4 (c O)).
Qed.

(** The ways [checkCanUpdate] ends, for any clock and any table. *)
Lemma checkCanUpdate_cases user w :
  let r := Points.checkCanUpdate user w in
  let k := citext user in
  exists t' c,
    snd r = set_usertracker t' (set_clock c w)
    /\ ((exists e, fst r = Thrown e
                   /\ (t' = usertracker w
                       \/ (usertracker w !! k = None
                           /\ exists ts, t' = <[k := (0, ts)]> (usertracker w))))
        \/ (fst r = Returned false
            /\ ((exists ops ts, usertracker w !! k = Some (ops, ts)
                                /\ Points.reached ops (MAX_OPS w) = true
                                /\ t' = usertracker w)
                \/ (usertracker w !! k = None
                    /\ Points.reached 0 (MAX_OPS w) = true
                    /\ exists ts, t' = <[k := (0, ts)]> (usertracker w))))
        \/ (exists row,
              fst r = Returned true
              /\ t' = <[k := row]> (usertracker w)
              /\ (fst row = 1
                  \/ (exists ops ts, usertracker w !! k = Some (ops, ts)
                                     /\ Points.reached ops (MAX_OPS w) = false
                                     /\ fst row = ops + 1)))).
Proof.
  intros r k. unfold r, k, Points.checkCanUpdate. rewrite bind_gets.
  destruct (usertracker w !! citext user) as [[ops ts]|] eqn:Hrow.
  - rewrite (select_found _ _ _ Hrow).
    change (Z.of_nat (length [(ops, ts)]) <? 1) with false. cbv iota.
    rewrite bind_ret. cbn [first_row]. rewrite bind_ret.
    destruct (decide_and_write_cases user ops ts w) as (t' & c & Hw & Hcases).
    cbv zeta in Hw, Hcases.
    exists t', c. split; [exact Hw|].
    destruct Hcases as [(e & He & Ht) | [(Hf & Ht & Hmax) | (row & Hr & Ht & Hrow')]].
    + left. eauto.
    + right. left. split; [exact Hf|]. left. eauto.
    + right. right. exists row. repeat split; try assumption.
      destruct Hrow' as [H1 | [Hmax Hcount]]; [now left | right; eauto].
  - rewrite (select_missing _ _ Hrow).
    change (Z.of_nat (length []) <? 1) with true. cbv iota.
    destruct (Points.fits_tracker (0, clock w O)) eqn:Hfit.
    + pose proof (insert_zero_written user w Hrow) as Hz. rewrite Hfit in Hz.
      set (u1 := <[citext user := (0, clock w O)]> (usertracker w)) in *.
      set (w1 := set_usertracker u1 (set_clock (fun n => clock w (S (S n))) w)) in *.
      assert (H1 : usertracker w1 !! citext user = Some (0, clock w O))
        by (unfold w1, u1; cbn [usertracker]; apply lookup_insert_eq).
      rewrite (bind_returned _ _ _ _ _
                 (bind_returned _ _ _ _ _ Hz)).
      cbv beta. rewrite (select_found _ _ _ H1).
      cbn [first_row]. rewrite bind_ret.
      destruct (decide_and_write_cases user 0 (clock w O) w1)
        as (t' & c & Hw & Hcases).
      cbv zeta in Hw, Hcases.
      assert (Hu1 : usertracker w1 = u1) by reflexivity.
      assert (Hm1 : MAX_OPS w1 = MAX_OPS w) by reflexivity.
      rewrite Hu1, Hm1 in Hcases.
      exists t', c. split.
      { rewrite Hw. unfold w1. destruct w. reflexivity. }
      destruct Hcases as [(e & He & Ht) | [(Hf & Ht & Hmax) | (row & Hr & Ht & Hrow')]].
      * left. exists e. split; [exact He|]. right. split; [reflexivity|].
        exists (clock w O). exact Ht.
      * right. left. split; [exact Hf|]. right. repeat split; try assumption.
        exists (clock w O). exact Ht.
      * right. right. exists row. split; [exact Hr|]. split.
        { rewrite Ht. unfold u1. apply insert_insert_eq. }
        left. destruct Hrow' as [H | [_ H]]; [exact H | exact H].
    + pose proof (insert_zero_written user w Hrow) as Hz. rewrite Hfit in Hz.
      rewrite (bind_thrown _ _ _ _ _ (bind_thrown _ _ _ _ _ Hz)).
      exists (usertracker w), (fun n => clock w (S (S n))). split.
      { cbn [snd]. destruct w. reflexivity. }
      left. exists out_of_range. split; [reflexivity|]. now left.
Qed.

(** X8. Evaluations that run one after the other never store a count above
    the maximum: with [MAX_OPS = m], [1 <= m], a table in which no record
    counts more than [m] operations is still such a table after
    [checkCanUpdate], whatever the user, the clock and the outcome. *)
Theorem checkCanUpdate_keeps_quota user w m :
  MAX_OPS w = Some m -> 1 <= m ->
  Points.within_quota m (usertracker w) ->
  Points.within_quota m (usertracker (snd (Points.checkCanUpdate user w))).
Proof.
  intros Hmax Hm Hq.
  destruct (checkCanUpdate_cases user w) as (t' & c & Hw & Hcases).
  cbv zeta in Hw, Hcases. rewrite Hw. cbn [usertracker set_usertracker].
  unfold Points.within_quota in *.
  assert (Hzero : forall ts,
            map_Forall (fun (_ : string) (row : Z * Z) => fst row <= m)
              (<[citext user := (0, ts)]> (usertracker w))).
  { intros ts. apply map_Forall_insert_2; [cbn; lia | exact Hq]. }
  destruct Hcases
    as [(e & _ & [-> | (_ & ts & ->)])
       | [(_ & [(ops & ts & _ & _ & ->) | (_ & _ & ts & ->)])
         | (row & _ & -> & Hrow)]]; auto.
  apply map_Forall_insert_2; [|exact Hq].
  destruct Hrow as [-> | (ops & ts & _ & Hbelow & ->)]; [lia|].
  rewrite Hmax in Hbelow. cbn in Hbelow. apply Z.leb_gt in Hbelow. lia.
Qed.

Lemma checkCanUpdate_keeps_quota_witness :
  let w := set_usertracker {[ "u024be7lh" := (3, 1000) ]} (fresh_world (Some 3) 1500 0) in
  Points.within_quota 3 (usertracker (snd (Points.checkCanUpdate "U024BE7LH" w))).
Proof.
  refine (checkCanUpdate_keeps_quota "U024BE7LH" _ 3 _ _ _).
  - reflexivity.
  - lia.
  - apply map_Forall_singleton. cbn. lia.
Defined.

(** X9. A denial writes nothing: when [checkCanUpdate] returns [false] for a
    user who has a record, a maximum [m] is configured, the record counts
    [m] operations or more, and the table is the one before the call. *)
Theorem checkCanUpdate_denial_writes_nothing user w ops ts :
  usertracker w !! citext user = Some (ops, ts) ->
  fst (Points.checkCanUpdate user w) = Returned false ->
  usertracker (snd (Points.checkCanUpdate user w)) = usertracker w
  /\ exists m, MAX_OPS w = Some m /\ m <= ops.
Proof.
  intros Hrow Hdenied.
  destruct (checkCanUpdate_cases user w) as (t' & c & Hw & Hcases).
  cbv zeta in Hw, Hcases. rewrite Hw. cbn [usertracker set_usertracker].
  destruct Hcases
    as [(e & He & _)
       | [(_ & [(ops' & ts' & Hrow' & Hreached & ->) | (Hnone & _)])
         | (row & Ht & _)]]; try congruence.
  split; [reflexivity|].
  assert (ops' = ops) as -> by congruence.
  destruct (MAX_OPS w) as [m|]; [|discriminate].
  exists m. split; [reflexivity|]. now apply Z.leb_le.
Qed.

Lemma checkCanUpdate_denial_writes_nothing_witness :
  let w := set_usertracker {[ "u024be7lh" := (3, 1000) ]} (fresh_world (Some 3) 1500 0) in
  usertracker (snd (Points.checkCanUpdate "U024BE7LH" w)) = usertracker w
  /\ exists m, MAX_OPS w = Some m /\ m <= 3.
Proof.
  refine (checkCanUpdate_denial_writes_nothing "U024BE7LH" _ 3 1000 _ _).
  - reflexivity.
  - reflexivity.
Defined.

(** X10. Without a maximum nobody is denied: when [MAX_OPS] is not set the
    comparison [userOperations >= MAX_OPS] is false for every count, and
    [checkCanUpdate] never returns [false]. *)
Theorem checkCanUpdate_unlimited_without_max user w :
  MAX_OPS w = None ->
  fst (Points.checkCanUpdate user w) <> Returned false.
Proof.
  intros Hmax Hdenied.
  destruct (checkCanUpdate_cases user w) as (t' & c & _ & Hcases).
  cbv zeta in Hcases. rewrite Hmax in Hcases.
  destruct Hcases
    as [(e & He & _)
       | [(_ & [(ops' & ts' & _ & Hreached & _) | (_ & Hreached & _)])
         | (row & Ht & _)]]; try congruence; discriminate.
Qed.

Lemma checkCanUpdate_unlimited_without_max_witness :
  let w := set_usertracker {[ "u024be7lh" := (40, 1000) ]} (fresh_world None 1500 0) in
  fst (Points.checkCanUpdate "U024BE7LH" w) <> Returned false.
Proof.
  refine (checkCanUpdate_unlimited_without_max "U024BE7LH" _ _).
  reflexivity.
Defined.

(** X11. [checkCanUpdate] touches the caller's record and the clock only:
    the record of every other user, the scores, the messages sent, the
    calls started, the maximum and the random draws are as before,
    whatever the outcome. *)
Theorem checkCanUpdate_leaves_other_users user other w :
  citext other <> citext user ->
  let w' := snd (Points.checkCanUpdate user w) in
  usertracker w' !! citext other = usertracker w !! citext other
  /\ scores w' = scores w /\ ledger w' = ledger w
  /\ outbox w' = outbox w /\ pending w' = pending w
  /\ MAX_OPS w' = MAX_OPS w /\ entropy w' = entropy w.
Proof.
  intros Hother w'. unfold w'.
  destruct (checkCanUpdate_cases user w) as (t' & c & Hw & Hcases).
  cbv zeta in Hw, Hcases. rewrite Hw. cbn [usertracker set_usertracker].
  split; [|repeat split].
  destruct Hcases
    as [(e & _ & [-> | (_ & ts & ->)])
       | [(_ & [(ops & ts & _ & _ & ->) | (_ & _ & ts & ->)])
         | (row & _ & -> & _)]];
    try reflexivity; now apply lookup_insert_ne.
Qed.

Lemma checkCanUpdate_leaves_other_users_witness :
  let w := set_usertracker {[ "u0other" := (2, 900) ]} (fresh_world (Some 3) 1500 0) in
  let w' := snd (Points.checkCanUpdate "U024BE7LH" w) in
  usertracker w' !! citext "U0OTHER" = usertracker w !! citext "U0OTHER"
  /\ scores w' = scores w /\ ledger w' = ledger w
  /\ outbox w' = outbox w /\ pending w' = pending w
  /\ MAX_OPS w' = MAX_OPS w /\ entropy w' = entropy w.
Proof.
  refine (checkCanUpdate_leaves_other_users "U024BE7LH" "U0OTHER" _ _).
  discriminate.
Defined.

(** Evaluations inside a running window: as many are allowed as the record
    has operations left, the others are denied. *)
Lemma evaluations_in_window user m t1 : forall times w c,
  MAX_OPS w = Some m -> m <= 2147483647 ->
  usertracker w !! citext user = Some (c, t1) ->
  -2147483648 <= c -> int4 t1 = true ->
  Forall (fun t => t - t1 < 3600) times ->
  let r := Points.evaluations times user w in
  let left := Z.to_nat (m - c) in
  fst r = (replicate (Nat.min (length times) left) (Returned true)
           ++ replicate (length times - left) (Returned false))%list
  /\ usertracker (snd r) !! citext user
     = Some (c + Z.of_nat (Nat.min (length times) left), t1).
Proof.
  induction times as [|now rest IH]; intros w c Hmax Hm Hrow Hc Ht1 Hwin.
  - cbn. rewrite Z.add_0_r. split; [reflexivity | exact Hrow].
  - apply Forall_cons in Hwin as [Hnow Hrest].
    cbn [Points.evaluations length]. cbv zeta.
    destruct (Z.leb_spec m c) as [Hfull | Hbelow].
    + rewrite (checkCanUpdate_denies user w now c t1 Hrow Hnow)
        by (rewrite Hmax; cbn; now apply Z.leb_le).
      cbn [fst snd].
      destruct (IH (at_time now w) c Hmax Hm Hrow Hc Ht1 Hrest) as [Hres Hrec].
      cbv zeta in Hres, Hrec. rewrite Hres, Hrec.
      replace (Z.to_nat (m - c)) with O by lia.
      rewrite !Nat.min_0_r, !Nat.sub_0_r. split; reflexivity.
    + rewrite (checkCanUpdate_counts user w now c t1 Hrow Hnow)
        by (try (rewrite Hmax; cbn; now apply Z.leb_gt);
            try assumption; apply int4_spec; lia).
      cbn [fst snd].
      set (w1 := set_usertracker _ (at_time now w)).
      assert (Hrow1 : usertracker w1 !! citext user = Some (c + 1, t1))
        by apply lookup_insert_eq.
      destruct (IH w1 (c + 1) Hmax Hm Hrow1 ltac:(lia) Ht1 Hrest) as [Hres Hrec].
      cbv zeta in Hres, Hrec. rewrite Hres, Hrec.
      replace (Z.to_nat (m - c)) with (S (Z.to_nat (m - (c + 1)))) by lia.
      cbn [Nat.min Nat.sub replicate app]. split; [reflexivity|].
      f_equal. f_equal. lia.
Qed.

(** X12. The first [m] are allowed, the rest denied: with [MAX_OPS = m],
    for a user with no record or a record whose window is over, any number
    of evaluations one after the other, the first at [t1] and each of the
    others less than 3600 seconds after [t1], are allowed up to the [m]th
    and denied from then on; the record ends at the number allowed, with
    [t1] as its window start. *)
Theorem evaluations_first_m_allowed user w m t1 rest :
  MAX_OPS w = Some m -> 1 <= m <= 2147483647 ->
  usertracker w !! citext user = None
  \/ (exists ops ts, usertracker w !! citext user = Some (ops, ts)
                     /\ 3600 <= t1 - ts) ->
  int4 t1 = true ->
  Forall (fun t => t - t1 < 3600) rest ->
  let r := Points.evaluations (t1 :: rest) user w in
  let n := S (length rest) in
  fst r = (replicate (Nat.min n (Z.to_nat m)) (Returned true)
           ++ replicate (n - Z.to_nat m) (Returned false))%list
  /\ usertracker (snd r) !! citext user
     = Some (Z.of_nat (Nat.min n (Z.to_nat m)), t1).
Proof.
  intros Hmax Hm Hrow Ht1 Hwin. cbv zeta. cbn [Points.evaluations].
  rewrite (checkCanUpdate_opens_window user w t1 m Hmax ltac:(lia) Hrow Ht1).
  cbn [fst snd].
  set (w1 := set_usertracker _ (at_time t1 w)).
  assert (Hrow1 : usertracker w1 !! citext user = Some (1, t1))
    by apply lookup_insert_eq.
  destruct (evaluations_in_window user m t1 rest w1 1 Hmax ltac:(lia) Hrow1
              ltac:(lia) Ht1 Hwin) as [Hres Hrec].
  cbv zeta in Hres, Hrec. rewrite Hres, Hrec.
  replace (Z.to_nat m) with (S (Z.to_nat (m - 1))) by lia.
  cbn [Nat.min Nat.sub replicate app]. split; [reflexivity|].
  f_equal. f_equal. lia.
Qed.

Lemma evaluations_first_m_allowed_witness :
  let r := Points.evaluations [1000; 1001; 4599; 1002; 900]
             "U024BE7LH" (fresh_world (Some 2) 0 0) in
  fst r = [Returned true; Returned true; Returned false; Returned false;
           Returned false]
  /\ usertracker (snd r) !! citext "U024BE7LH" = Some (2, 1000).
Proof.
  refine (evaluations_first_m_allowed "U024BE7LH" (fresh_world (Some 2) 0 0)
            2 1000 [1001; 4599; 1002; 900] _ _ _ _ _).
  - reflexivity.
  - lia.
  - left. reflexivity.
  - reflexivity.
  - repeat constructor; lia.
Defined.

(** X13. The window start is an INTEGER column: at an epoch second above
    2147483647 an evaluation that has to write the time (the user has no
    record, or a record whose window is over) is rejected by the database
    with "integer out of range", and nothing is written. *)
Theorem checkCanUpdate_rejected_beyond_integer_time user w now :
  2147483647 < now ->
  usertracker w !! citext user = None
  \/ (exists ops ts, usertracker w !! citext user = Some (ops, ts)
                     /\ 3600 <= now - ts) ->
  Points.checkCanUpdate user (at_time now w)
  = (Thrown out_of_range, at_time now w).
Proof.
  intros Hnow [Hrow | (ops & ts & Hrow & Hover)].
  - unfold Points.checkCanUpdate. rewrite bind_gets.
    change (usertracker (at_time now w)) with (usertracker w).
    rewrite (select_missing _ _ Hrow).
    change (Z.of_nat (length []) <? 1) with true. cbv iota.
    pose proof (insert_zero_written user (at_time now w) Hrow) as Hz.
    change (clock (at_time now w) O) with now in Hz.
    assert (Hfit : Points.fits_tracker (0, now) = false).
    { unfold Points.fits_tracker. cbn [fst snd].
      destruct (int4 now) eqn:E; [apply int4_spec in E; lia|].
      apply andb_false_r. }
    rewrite Hfit in Hz.
    rewrite (bind_thrown _ _ _ _ _ (bind_thrown _ _ _ _ _ Hz)).
    destruct w. reflexivity.
  - rewrite (checkCanUpdate_known user (at_time now w) _ Hrow).
    unfold Points.decide_and_write. rewrite bind_now. cbn [fst snd].
    destruct (Z.ltb_spec (now - ts) 3600); [lia|].
    rewrite !bind_now.
    unfold bind, Points.query_usertracker, upsert, Points.fits_tracker.
    cbn [fst snd].
    destruct (int4 now) eqn:E; [apply int4_spec in E; lia|].
    rewrite andb_false_r. reflexivity.
Qed.

Lemma checkCanUpdate_rejected_beyond_integer_time_witness :
  Points.checkCanUpdate "U024BE7LH" (at_time 2147483648 (fresh_world (Some 3) 0 0))
  = (Thrown out_of_range, at_time 2147483648 (fresh_world (Some 3) 0 0)).
Proof.
  refine (checkCanUpdate_rejected_beyond_integer_time "U024BE7LH" _ 2147483648 _ _).
  - lia.
  - left. reflexivity.
Defined.

(** * Further properties of the messages *)


Section Kinds.
Context `{Operations} `{Helpers}.



End Kinds.


(** * Further properties of the event handlers *)

Section Deferred.
Context `{Operations} `{Helpers}.

(** What one entry of a message leaves behind: replies to the channel of
    the event and calls started in the name of its author, for items other
    than the author. *)
Lemma dispatch_defers ev target amount cats w :
  let w' := snd (Events.dispatch ev target amount cats w) in
  (scores w' = scores w /\ ledger w' = ledger w /\ usertracker w' = usertracker w
   /\ clock w' = clock w /\ MAX_OPS w' = MAX_OPS w)
  /\ exists started replies,
       pending w' = (pending w ++ started)%list
       /\ outbox w' = (outbox w ++ replies)%list
       /\ Forall (fun t =>
                    match t with
                    | handlePlusMinus_call item _ _ channel userInit ts =>
                        item <> Events.user ev /\ channel = Events.channel ev
                        /\ userInit = Events.user ev /\ ts = Events.ts ev
                    end) started
       /\ Forall (fun call => exists message,
                    call = sendMessage message (Events.channel ev)) replies.
Proof.
  unfold Events.dispatch.
  destruct (String.eqb_spec target (Events.user ev)) as [->|Hother].
  - unfold Events.handleSelfPlus, Events.slack, bind.
    destruct (getRandomMessage_frame SELF (Events.user ev) None None w) as [e E].
    destruct (Messages.getRandomMessage SELF (Events.user ev) None None w)
      as [[message|err] w2]; cbn [snd] in E; subst w2; cbn [snd modify].
    + split; [repeat split|].
      exists [], [sendMessage message (Events.channel ev)].
      cbn [pending outbox set_outbox set_entropy]. rewrite app_nil_r.
      repeat split; [constructor | repeat constructor; eauto].
    + split; [repeat split|].
      exists [], []. cbn [pending outbox set_entropy]. rewrite !app_nil_r.
      repeat split; constructor.
  - unfold Events.start. rewrite bind_modify.
    destruct (Events.positive_number cats && String.eqb (Events.user ev) "ULJ7NNS8H").
    + cbn [snd modify]. split; [repeat split|].
      eexists [_; _], []. cbn [pending outbox set_pending].
      rewrite <- app_assoc, app_nil_r. cbn [app].
      repeat split; repeat constructor; assumption.
    + cbn [snd ret]. split; [repeat split|].
      eexists [_], []. cbn [pending outbox set_pending]. rewrite app_nil_r.
      repeat split; repeat constructor; assumption.
Qed.

(** X15. [handlers.message] itself scores nothing: whatever the text and
    the entries extracted from it, and wherever the loop stops, the score
    tables, the usertracker table, the clock and the maximum are as they
    were; what it leaves are replies by [sendMessage] to the channel of the
    event and started [handlePlusMinus] calls, each for an item other than
    the author and carrying the author, the channel and the timestamp of
    the event. *)
Theorem handlers_message_defers_scoring ev w :
  let w' := snd (Events.handlers_message ev w) in
  (scores w' = scores w /\ ledger w' = ledger w /\ usertracker w' = usertracker w
   /\ clock w' = clock w /\ MAX_OPS w' = MAX_OPS w)
  /\ exists started replies,
       pending w' = (pending w ++ started)%list
       /\ outbox w' = (outbox w ++ replies)%list
       /\ Forall (fun t =>
                    match t with
                    | handlePlusMinus_call item _ _ channel userInit ts =>
                        item <> Events.user ev /\ channel = Events.channel ev
                        /\ userInit = Events.user ev /\ ts = Events.ts ev
                    end) started
       /\ Forall (fun call => exists message,
                    call = sendMessage message (Events.channel ev)) replies.
Proof.
  unfold Events.handlers_message.
  generalize (extractPlusMinusEventData (Events.text ev)). intros data.
  revert w. induction data as [|e data IH]; intros w.
  - cbn. split; [repeat split|]. exists [], []. rewrite !app_nil_r.
    repeat split; constructor.
  - assert (Hstop : forall b,
      let w' := snd (ret (A := bool) b w) in
      (scores w' = scores w /\ ledger w' = ledger w
       /\ usertracker w' = usertracker w
       /\ clock w' = clock w /\ MAX_OPS w' = MAX_OPS w)
      /\ exists started replies,
           pending w' = (pending w ++ started)%list
           /\ outbox w' = (outbox w ++ replies)%list
           /\ Forall (fun t =>
                        match t with
                        | handlePlusMinus_call item _ _ channel userInit ts =>
                            item <> Events.user ev /\ channel = Events.channel ev
                            /\ userInit = Events.user ev /\ ts = Events.ts ev
                        end) started
           /\ Forall (fun call => exists message,
                        call = sendMessage message (Events.channel ev)) replies).
    { intros b. cbn. split; [repeat split|]. exists [], []. rewrite !app_nil_r.
      repeat split; constructor. }
    cbn [Events.message_loop].
    destruct (Events.truthy_string (item e)) as [target|]; [|apply Hstop].
    destruct (Events.truthy_number (quantity e)) as [amount|]; [|apply Hstop].
    pose proof (dispatch_defers ev target amount (cats e) w) as Hstep.
    cbv zeta in Hstep. unfold bind.
    destruct (Events.dispatch ev target amount (cats e) w) as [[[]|err] w1];
      cbn [snd] in Hstep |- *; [|exact Hstep].
    specialize (IH w1). cbv zeta in IH.
    destruct Hstep as ((S1 & S2 & S3 & S4 & S5) & st1 & re1 & P1 & O1 & F1 & G1).
    destruct IH as ((I1 & I2 & I3 & I4 & I5) & st2 & re2 & P2 & O2 & F2 & G2).
    split; [repeat split; congruence|].
    exists (st1 ++ st2)%list, (re1 ++ re2)%list.
    rewrite P2, P1, O2, O1, <- !app_assoc.
    repeat split; apply Forall_app; split; assumption.
Qed.

(** X16. A denied [handlePlusMinus]: when the rate limiter answers [false],
    the call ends with the one message "No Soup for <@user>! ..." sent by
    [sendMessage] to the channel (not to the thread), no message is
    composed, no draw is taken, and no score changes. *)
Theorem handlePlusMinus_denied_sends_no_soup item operation quantity channel
    userInit ts w :
  fst (Points.checkCanUpdate userInit w) = Returned false ->
  let w1 := snd (Points.checkCanUpdate userInit w) in
  Events.handlePlusMinus item operation quantity channel userInit ts w
  = (Returned tt,
     set_outbox (outbox w ++ [sendMessage (Events.no_soup userInit) channel]) w1)
  /\ scores w1 = scores w /\ ledger w1 = ledger w /\ entropy w1 = entropy w.
Proof.
  intros Hdenied w1. unfold w1.
  destruct (checkCanUpdate_cases userInit w) as (t' & c & Hw & _).
  cbv zeta in Hw.
  unfold Events.handlePlusMinus, Events.points_checkCanUpdate, bind.
  destruct (Points.checkCanUpdate userInit w) as [answer w2].
  cbn [fst snd] in *. subst answer w2.
  cbn [Events.handlePlusMinus_checked]. split; [|repeat split].
  reflexivity.
Qed.

End Deferred.

Lemma handlePlusMinus_denied_sends_no_soup_witness :
  let w := set_usertracker {[ "u024be7lh" := (3, 1000) ]}
             (fresh_world (Some 3) 1500 0) in
  let w1 := snd (Points.checkCanUpdate "U024BE7LH" w) in
  @Events.handlePlusMinus example_registry (example_helpers [])
    "U0G9QF9C6" Plus 2 "C2147483705" "U024BE7LH" "1355517523.000005" w
  = (Returned tt,
     set_outbox (outbox w ++ [sendMessage (Events.no_soup "U024BE7LH") "C2147483705"]) w1)
  /\ scores w1 = scores w /\ ledger w1 = ledger w /\ entropy w1 = entropy w.
Proof.
  refine (@handlePlusMinus_denied_sends_no_soup example_registry (example_helpers [])
            "U0G9QF9C6" Plus 2 "C2147483705" "U024BE7LH" "1355517523.000005" _ _).
  reflexivity.
Defined.

(** X17. [sayThankyou] answers with one of its five messages, after a
    mention of the author: with a draw in [0, 1) the index
    [floor( 5 r )] is inside the array, so the reply never reads
    "undefined"; one draw is consumed and nothing else changes. Here every
    one of the five is reached by some draw. *)
Theorem sayThankyou_replies_with_one_of_five ev w :
  unit_draw (entropy w 0%nat) ->
  (exists text,
     In text Events.thankyouMessages
     /\ Events.sayThankyou ev w
        = (Returned tt,
           set_outbox
             (outbox w ++ [sendMessage ("<@" +:+ Events.user ev +:+ "> " +:+ text)
                             (Events.channel ev)])
             (set_entropy (fun n => entropy w (S n)) w)))
  /\ Forall (fun text =>
               exists r, unit_draw r
                         /\ at_index Events.thankyouMessages
                              (floor_times r (Z.of_nat (length Events.thankyouMessages)))
                            = Some text)
       Events.thankyouMessages.
Proof.
  intros Hdraw. split.
  - destruct (at_index_lookup Events.thankyouMessages
                (floor_times (entropy w 0%nat)
                   (Z.of_nat (length Events.thankyouMessages))))
      as (text & Hat & Hlookup).
    { apply floor_times_range; [exact Hdraw | cbn; lia]. }
    exists text. split.
    + apply list_elem_of_In. now apply list_elem_of_lookup_2 in Hlookup.
    + unfold Events.sayThankyou. rewrite bind_random. cbv zeta.
      rewrite Hat. cbn [default]. destruct w; reflexivity.
  - unfold Events.thankyouMessages. repeat constructor.
    + exists (0 # 5). repeat split; [discriminate | reflexivity..].
    + exists (1 # 5). repeat split; [discriminate | reflexivity..].
    + exists (2 # 5). repeat split; [discriminate | reflexivity..].
    + exists (3 # 5). repeat split; [discriminate | reflexivity..].
    + exists (4 # 5). repeat split; [discriminate | reflexivity..].
Qed.

Lemma sayThankyou_replies_with_one_of_five_witness :
  exists text,
    In text Events.thankyouMessages
    /\ Events.sayThankyou (Events.Event "U024BE7LH" "C2147483705" "1355517523.000005" "thanks")
         (fresh_world None 1000 (1 # 2))
       = (Returned tt,
          set_outbox [sendMessage ("<@U024BE7LH> " +:+ text) "C2147483705"]
            (fresh_world None 1000 (1 # 2))).
Proof.
  refine (proj1 (sayThankyou_replies_with_one_of_five
                   (Events.Event "U024BE7LH" "C2147483705" "1355517523.000005" "thanks")
                   (fresh_world None 1000 (1 # 2)) _)).
  split; [discriminate | reflexivity].
Defined.

Section Validation.
Context `{Operations} `{Helpers}.
Variable camelCase : string -> string.
Variable trim : string -> string.
Variable handlers_appMention : Events.slack_event -> M Events.answer.

(** X18. What [handleEvent] turns away: an event without a type, an event
    with a subtype, and an event that is not a taco reaction and has no
    text, or a text that is blank once trimmed. It returns [false], no
    handler runs, and nothing changes. *)
Theorem handleEvent_rejects (e : Events.slack_event) w :
  Events.event_type e = None
  \/ Events.subtype e <> None
  \/ (~ (Events.event_type e = Some "reaction_added"
         /\ Events.reaction e = Some "taco")
      /\ (Events.event_text e = None
          \/ exists text, Events.event_text e = Some text /\ trim text = "")) ->
  Events.handleEvent camelCase trim handlers_appMention e w
  = (Returned (Events.Bool false), w).
Proof.
  intros Hbad. unfold Events.handleEvent.
  destruct (Events.event_type e) as [type|]; [|reflexivity].
  destruct (Events.subtype e) as [sub|]; [reflexivity|].
  destruct Hbad as [Hbad | [Hbad | [Hreaction Htext]]]; [discriminate | congruence |].
  assert (Hno : String.eqb type "reaction_added"
                && Events.is_string (Events.reaction e) "taco" = false).
  { apply andb_false_iff.
    destruct (String.eqb_spec type "reaction_added") as [->|]; [right | now left].
    unfold Events.is_string.
    destruct (Events.reaction e) as [name|]; [|reflexivity].
    destruct (String.eqb_spec name "taco") as [->|]; [|reflexivity].
    exfalso. apply Hreaction. split; reflexivity. }
  rewrite Hno. cbn [negb andb].
  destruct Htext as [-> | (text & -> & ->)]; reflexivity.
Qed.

(** X19. A reaction scores nothing: for an event of type [reaction_added],
    whatever the reaction and the user reacted to, [handleEvent] returns a
    boolean and changes nothing (the call that would credit the author of
    the message is commented out); the boolean is [false] when the users
    react to a message of their own. Hypothesis: [camelCase] turns
    [reaction_added] into [reactionAdded]. *)
Theorem reaction_events_change_nothing (e : Events.slack_event) w :
  Events.event_type e = Some "reaction_added" ->
  camelCase "reaction_added" = "reactionAdded" ->
  exists b,
    Events.handleEvent camelCase trim handlers_appMention e w
    = (Returned (Events.Bool b), w)
    /\ (Events.item_user e = Some (Events.event_user e) -> b = false).
Proof.
  intros Htype Hcamel. unfold Events.handleEvent. rewrite Htype, Hcamel.
  destruct (Events.subtype e); [exists false; split; reflexivity|].
  match goal with
  | |- context [if ?c then _ else _] => destruct c
  end; [exists false; split; reflexivity|].
  change (String.eqb "reactionAdded" "message") with false.
  change (String.eqb "reactionAdded" "reactionAdded") with true.
  cbv iota. unfold Events.handlers_reactionAdded.
  destruct (Events.item_user e) as [target|].
  - eexists. split; [reflexivity|].
    intros E. injection E as ->. now rewrite String.eqb_refl.
  - exists true. split; [reflexivity | discriminate].
Qed.

End Validation.

Lemma handleEvent_rejects_witness :
  let e := Events.SlackEvent (Some "message") None (Some "   ") None None
             "U024BE7LH" "C2147483705" "1355517523.000005" in
  @Events.handleEvent example_registry (example_helpers [])
    (fun s => s) (fun _ => "") (fun _ => ret Events.Promise) e
    (fresh_world (Some 3) 1000 0)
  = (Returned (Events.Bool false), fresh_world (Some 3) 1000 0).
Proof.
  refine (@handleEvent_rejects example_registry (example_helpers [])
            (fun s => s) (fun _ => "") (fun _ => ret Events.Promise) _ _ _).
  right. right. split.
  - intros [E _]. discriminate E.
  - right. exists "   ". split; reflexivity.
Defined.

Lemma reaction_events_change_nothing_witness :
  let e := Events.SlackEvent (Some "reaction_added") None None (Some "taco")
             (Some "U0G9QF9C6") "U024BE7LH" "C2147483705" "1355517523.000005" in
  exists b,
    @Events.handleEvent example_registry (example_helpers [])
      (fun _ => "reactionAdded") (fun s => s) (fun _ => ret Events.Promise) e
      (fresh_world (Some 3) 1000 0)
    = (Returned (Events.Bool b), fresh_world (Some 3) 1000 0)
    /\ (Events.item_user e = Some (Events.event_user e) -> b = false).
Proof.
  refine (@reaction_events_change_nothing example_registry (example_helpers [])
            (fun _ => "reactionAdded") (fun s => s) (fun _ => ret Events.Promise)
            _ _ _ _).
  - reflexivity.
  - reflexivity.
Defined.

(** * The handler of [src/index.js] and the rate limiter together *)

Section Limited.
Context `{Operations} `{Helpers}.

(** The state [handlePlusMinus] ends in, by the answer of the limiter. *)
Lemma handlePlusMinus_end item operation channel userInit w :
  let c := Points.checkCanUpdate userInit w in
  let r := IndexJs.handlePlusMinus item operation channel userInit w in
  usertracker (snd r) = usertracker (snd c)
  /\ MAX_OPS (snd r) = MAX_OPS w
  /\ (fst c = Returned true ->
      scores (snd r) = scores (snd (Points.updateScore item operation (snd c))))
  /\ (fst c <> Returned true -> scores (snd r) = scores w)
  /\ (fst c = Returned false ->
      fst r = Returned tt
      /\ outbox (snd r)
         = (outbox w ++ [sendMessage (IndexJs.no_soup userInit) channel])%list).
Proof.
  intros c r.
  assert (Hr : r = IndexJs.handlePlusMinus item operation channel userInit w)
    by reflexivity.
  clearbody r. unfold c. clear c.
  destruct (checkCanUpdate_cases userInit w) as (t' & k & Hw & _).
  cbv zeta in Hw.
  unfold IndexJs.handlePlusMinus in Hr. unfold bind at 1 in Hr.
  destruct (Points.checkCanUpdate userInit w) as [[[|]|err] w1];
    cbn [fst snd] in *; subst w1.
  - set (w1 := set_usertracker t' (set_clock k w)) in *.
    unfold bind at 1 in Hr.
    destruct (updateScore_outcome item operation w1) as [[e E] | [v E]];
      rewrite E in *.
    + subst r. cbn [snd]. repeat split; intros; try reflexivity; congruence.
    + set (w2 := set_scores _ w1) in *.
      unfold bind, Events.slack in Hr.
      destruct (getRandomMessage_frame (getOperationName operation) item
                  (Some v) None w2) as [e Hframe].
      destruct (Messages.getRandomMessage (getOperationName operation) item
                  (Some v) None w2) as [[message|err] w3];
        cbn [snd] in Hframe; subst w3 r; cbn [snd modify];
        repeat split; intros; try reflexivity; congruence.
  - unfold Events.slack in Hr. subst r. cbn [snd fst modify].
    repeat split; intros; try reflexivity; congruence.
  - subst r. cbn [snd fst]. repeat split; intros; try reflexivity; congruence.
Qed.

(** X20. [handlePlusMinus] moves a score only with the limiter's consent:
    when [checkCanUpdate] answers [true] the score of the item moves by
    one in the direction of the operation (the score of an item without a
    record counting as 0), and when it answers [false] or is rejected no
    score changes; on [false] the one message sent is "No Soup for
    <@user>! ...". *)
Theorem handlePlusMinus_scores_with_consent item operation channel userInit w :
  let c := Points.checkCanUpdate userInit w in
  let r := IndexJs.handlePlusMinus item operation channel userInit w in
  let new := default 0 (scores w !! citext item) + signed operation 1 in
  int4 new = true ->
  (fst c = Returned true -> scores (snd r) = <[citext item := new]> (scores w))
  /\ (fst c <> Returned true -> scores (snd r) = scores w)
  /\ (fst c = Returned false ->
      fst r = Returned tt
      /\ outbox (snd r)
         = (outbox w ++ [sendMessage (IndexJs.no_soup userInit) channel])%list).
Proof.
  intros c r new Hfits.
  destruct (handlePlusMinus_end item operation channel userInit w)
    as (_ & _ & Hallowed & Hnot & Hdenied).
  fold c r in Hallowed, Hnot, Hdenied.
  split; [|split; assumption].
  intros Hc. rewrite (Hallowed Hc).
  destruct (checkCanUpdate_cases userInit w) as (t' & k & Hw & _).
  cbv zeta in Hw. fold c in Hw. rewrite Hw.
  rewrite updateScore_moves by exact Hfits. reflexivity.
Qed.

(** A score that has a record keeps one. *)
Lemma credits_keep_record item channel userInit : forall times w,
  scores w !! citext item <> None ->
  scores (IndexJs.credits times item channel userInit w) !! citext item <> None.
Proof.
  induction times as [|now rest IH]; intros w Hrecord; [exact Hrecord|].
  cbn [IndexJs.credits]. apply IH.
  destruct (handlePlusMinus_end item Plus channel userInit (at_time now w))
    as (_ & _ & Hallowed & Hnot & _).
  cbv zeta in Hallowed, Hnot.
  destruct (fst (Points.checkCanUpdate userInit (at_time now w)))
    as [[|]|err] eqn:Hc.
  - rewrite (Hallowed eq_refl).
    destruct (updateScore_outcome item Plus
                (snd (Points.checkCanUpdate userInit (at_time now w))))
      as [[e ->] | [v ->]]; cbn [snd scores set_scores].
    + destruct (checkCanUpdate_cases userInit (at_time now w))
        as (t' & k & -> & _). exact Hrecord.
    + rewrite lookup_insert_eq. discriminate.
  - rewrite Hnot by discriminate. exact Hrecord.
  - rewrite Hnot by discriminate. exact Hrecord.
Qed.

(** Credits inside a running window: as many take effect as the record of
    the author has operations left. *)
Lemma credits_in_window item channel userInit m t1 : forall times w c,
  MAX_OPS w = Some m -> m <= 2147483647 ->
  usertracker w !! citext userInit = Some (c, t1) ->
  -2147483648 <= c -> int4 t1 = true ->
  Forall (fun t => t - t1 < 3600) times ->
  -2147483648 <= default 0 (scores w !! citext item) ->
  default 0 (scores w !! citext item)
    + Z.of_nat (Nat.min (length times) (Z.to_nat (m - c))) <= 2147483647 ->
  default 0 (scores (IndexJs.credits times item channel userInit w) !! citext item)
  = default 0 (scores w !! citext item)
    + Z.of_nat (Nat.min (length times) (Z.to_nat (m - c)))
  /\ usertracker (IndexJs.credits times item channel userInit w) !! citext userInit
     = Some (c + Z.of_nat (Nat.min (length times) (Z.to_nat (m - c))), t1).
Proof.
  induction times as [|now rest IH]; intros w c Hmax Hm Hrow Hc Ht1 Hwin.
  - cbn. intros _ _. rewrite !Z.add_0_r. split; [reflexivity | exact Hrow].
  - apply Forall_cons in Hwin as [Hnow Hrest].
    cbn [IndexJs.credits length]. intros Hold Hroom.
    destruct (handlePlusMinus_end item Plus channel userInit (at_time now w))
      as (Hu & Hm1 & Hallowed & Hnot & _).
    cbv zeta in Hu, Hm1, Hallowed, Hnot.
    set (w1 := snd (IndexJs.handlePlusMinus item Plus channel userInit (at_time now w))) in *.
    change (MAX_OPS (at_time now w)) with (MAX_OPS w) in Hm1.
    change (scores (at_time now w)) with (scores w) in Hnot.
    rewrite Hmax in Hm1.
    destruct (Z.leb_spec m c) as [Hfull | Hbelow].
    + rewrite (checkCanUpdate_denies userInit w now c t1 Hrow Hnow) in Hu, Hnot
        by (rewrite Hmax; cbn; now apply Z.leb_le).
      cbn [fst snd] in Hu, Hnot.
      change (usertracker (at_time now w)) with (usertracker w) in Hu.
      specialize (Hnot ltac:(discriminate)).
      assert (E0 : Z.to_nat (m - c) = O) by lia.
      rewrite E0, Nat.min_0_r in *.
      assert (Hrow1 : usertracker w1 !! citext userInit = Some (c, t1))
        by (rewrite Hu; exact Hrow).
      assert (Hold1 : -2147483648 <= default 0 (scores w1 !! citext item))
        by (rewrite Hnot; exact Hold).
      assert (Hroom1 : default 0 (scores w1 !! citext item)
                       + Z.of_nat (Nat.min (length rest) 0) <= 2147483647)
        by (rewrite Hnot, Nat.min_0_r; exact Hroom).
      pose proof (IH w1 c Hm1 Hm Hrow1 Hc Ht1 Hrest Hold1) as IH1.
      rewrite E0 in IH1. destruct (IH1 Hroom1) as [Hscore Hrec].
      rewrite Nat.min_0_r in Hscore, Hrec. rewrite Hnot in Hscore.
      split; assumption.
    + rewrite (checkCanUpdate_counts userInit w now c t1 Hrow Hnow) in Hu, Hallowed
        by (try (rewrite Hmax; cbn; now apply Z.leb_gt);
            try assumption; apply int4_spec; lia).
      cbn [fst snd] in Hu, Hallowed.
      specialize (Hallowed eq_refl).
      replace (Z.to_nat (m - c)) with (S (Z.to_nat (m - (c + 1)))) in * by lia.
      cbn [Nat.min] in *.
      rewrite Nat2Z.inj_succ in *.
      rewrite updateScore_moves in Hallowed
        by (cbv zeta; cbn [scores set_usertracker at_time set_clock signed];
            apply int4_spec; lia).
      cbn [snd scores set_scores set_usertracker at_time set_clock signed] in Hallowed.
      cbn [usertracker set_usertracker] in Hu.
      assert (Hrow1 : usertracker w1 !! citext userInit = Some (c + 1, t1))
        by (rewrite Hu; apply lookup_insert_eq).
      assert (Hscore1 : default 0 (scores w1 !! citext item)
                        = default 0 (scores w !! citext item) + 1).
      { rewrite Hallowed, lookup_insert_eq. reflexivity. }
      assert (Hold1 : -2147483648 <= default 0 (scores w1 !! citext item))
        by (rewrite Hscore1; lia).
      assert (Hroom1 : default 0 (scores w1 !! citext item)
                       + Z.of_nat (Nat.min (length rest) (Z.to_nat (m - (c + 1))))
                       <= 2147483647)
        by (rewrite Hscore1; lia).
      destruct (IH w1 (c + 1) Hm1 Hm Hrow1 ltac:(lia) Ht1 Hrest Hold1 Hroom1)
        as [Hscore Hrec].
      rewrite Hscore1 in Hscore. rewrite Hscore, Hrec.
      split; [lia | f_equal; f_equal; lia].
Qed.

(** X21. The scores a user can hand out in one window: with [MAX_OPS = m],
    for an author with no record or a record whose window is over, any
    number [n] of credits of one item, one after the other, the first at
    [t1] and the others less than 3600 seconds after [t1], leave the score
    of the item [min( n, m )] above what it was; the credits past the
    [m]th change no score. *)
Theorem credits_capped_by_quota item channel userInit w m t1 rest :
  MAX_OPS w = Some m -> 1 <= m <= 2147483647 ->
  usertracker w !! citext userInit = None
  \/ (exists ops ts, usertracker w !! citext userInit = Some (ops, ts)
                     /\ 3600 <= t1 - ts) ->
  int4 t1 = true ->
  Forall (fun t => t - t1 < 3600) rest ->
  let old := default 0 (scores w !! citext item) in
  let granted := Z.of_nat (Nat.min (S (length rest)) (Z.to_nat m)) in
  -2147483648 <= old -> old + granted <= 2147483647 ->
  let w' := IndexJs.credits (t1 :: rest) item channel userInit w in
  scores w' !! citext item = Some (old + granted)
  /\ usertracker w' !! citext userInit = Some (granted, t1).
Proof.
  intros Hmax Hm Hrow Ht1 Hwin old granted Hold Hroom w'.
  unfold w', granted in *. clear w' granted.
  cbn [IndexJs.credits].
  destruct (handlePlusMinus_end item Plus channel userInit (at_time t1 w))
    as (Hu & Hm1 & Hallowed & _ & _).
  cbv zeta in Hu, Hm1, Hallowed.
  set (w1 := snd (IndexJs.handlePlusMinus item Plus channel userInit (at_time t1 w))) in *.
  change (MAX_OPS (at_time t1 w)) with (MAX_OPS w) in Hm1.
  rewrite Hmax in Hm1.
  rewrite (checkCanUpdate_opens_window userInit w t1 m Hmax ltac:(lia) Hrow Ht1)
    in Hu, Hallowed.
  cbn [fst snd] in Hu, Hallowed. specialize (Hallowed eq_refl).
  replace (Z.to_nat m) with (S (Z.to_nat (m - 1))) in * by lia.
  cbn [Nat.min] in *. rewrite Nat2Z.inj_succ in *.
  rewrite updateScore_moves in Hallowed
    by (cbv zeta; cbn [scores set_usertracker at_time set_clock signed];
        apply int4_spec; fold old; lia).
  cbn [snd scores set_scores set_usertracker at_time set_clock signed] in Hallowed.
  fold old in Hallowed.
  cbn [usertracker set_usertracker] in Hu.
  assert (Hrow1 : usertracker w1 !! citext userInit = Some (1, t1))
    by (rewrite Hu; apply lookup_insert_eq).
  assert (Hscore1 : scores w1 !! citext item = Some (old + 1)).
  { rewrite Hallowed. apply lookup_insert_eq. }
  assert (D1 : default 0 (scores w1 !! citext item) = old + 1)
    by now rewrite Hscore1.
  destruct (credits_in_window item channel userInit m t1 rest w1 1 Hm1
              ltac:(lia) Hrow1 ltac:(lia) Ht1 Hwin) as [Hscore Hrec].
  { rewrite D1. lia. }
  { rewrite D1. lia. }
  rewrite D1 in Hscore.
  rewrite Hrec. split; [|f_equal; f_equal; lia].
  destruct (scores (IndexJs.credits rest item channel userInit w1) !! citext item)
    as [score|] eqn:Hfinal.
  - f_equal. change (default 0 (Some score)) with score in Hscore. lia.
  - exfalso. revert Hfinal. apply credits_keep_record. now rewrite Hscore1.
Qed.

End Limited.

Lemma handlePlusMinus_scores_with_consent_witness :
  let w := fresh_world (Some 3) 1000 (1 # 2) in
  let c := Points.checkCanUpdate "U024BE7LH" w in
  let r := @IndexJs.handlePlusMinus example_registry (example_helpers [])
             "U0G9QF9C6" Plus "C2147483705" "U024BE7LH" w in
  (fst c = Returned true -> scores (snd r) = <[citext "U0G9QF9C6" := 1]> (scores w))
  /\ (fst c <> Returned true -> scores (snd r) = scores w)
  /\ (fst c = Returned false ->
      fst r = Returned tt
      /\ outbox (snd r)
         = (outbox w ++ [sendMessage (IndexJs.no_soup "U024BE7LH") "C2147483705"])%list).
Proof.
  refine (@handlePlusMinus_scores_with_consent example_registry (example_helpers [])
            "U0G9QF9C6" Plus "C2147483705" "U024BE7LH"
            (fresh_world (Some 3) 1000 (1 # 2)) _).
  reflexivity.
Defined.

Lemma credits_capped_by_quota_witness :
  let w' := @IndexJs.credits example_registry (example_helpers [])
              [1000; 1200; 1400; 1600; 4599] "U0G9QF9C6" "C2147483705" "U024BE7LH"
              (fresh_world (Some 3) 0 (1 # 2)) in
  scores w' !! citext "U0G9QF9C6" = Some 3
  /\ usertracker w' !! citext "U024BE7LH" = Some (3, 1000).
Proof.
  refine (@credits_capped_by_quota example_registry (example_helpers [])
            "U0G9QF9C6" "C2147483705" "U024BE7LH"
            (fresh_world (Some 3) 0 (1 # 2)) 3 1000 [1200; 1400; 1600; 4599]
            _ _ _ _ _ _ _).
  - reflexivity.
  - lia.
  - left. reflexivity.
  - reflexivity.
  - repeat constructor; lia.
  - vm_compute. discriminate.
  - vm_compute. discriminate.
Defined.

(** * The random update and its reply *)

(** [randomScore] with two draws in [0, 1): the move, the score returned
    and the state left. *)
Lemma randomScore_run item operation w :
  let old := default 0 (scores w !! citext item) in
  unit_draw (entropy w 0%nat) -> unit_draw (entropy w 1%nat) ->
  int4 (old - 5) = true -> int4 (old + 5) = true ->
  exists d,
    1 <= Z.abs d <= 5
    /\ Points.randomScore item operation w
       = (Returned (old + d),
          set_scores (<[citext item := old + d]> (scores w))
            (set_entropy (fun n => entropy w (S (S n))) w)).
Proof.
  intros old Hr1 Hr2 Hlow Hhigh. apply int4_spec in Hlow, Hhigh.
  pose proof (floor_times_range _ 4 Hr1 ltac:(lia)) as Hi.
  pose proof (floor_times_range _ 5 Hr2 ltac:(lia)) as Hj.
  set (i := floor_times (entropy w 0%nat) 4) in *.
  set (j := floor_times (entropy w 1%nat) 5) in *.
  assert (Hop : exists operation',
             at_index [Plus; Minus; Plus; Plus] i = Some operation').
  { assert (i = 0 \/ i = 1 \/ i = 2 \/ i = 3) as [-> | [-> | [-> | ->]]] by lia;
      eexists; reflexivity. }
  assert (Hamount : at_index [1; 2; 3; 4; 5] j = Some (j + 1)).
  { assert (j = 0 \/ j = 1 \/ j = 2 \/ j = 3 \/ j = 4) as [-> | [-> | [-> | [-> | ->]]]]
      by lia; reflexivity. }
  destruct Hop as (operation' & Hop).
  exists (signed operation' (j + 1)).
  split; [destruct operation'; cbn [signed]; lia|].
  unfold Points.randomScore. rewrite bind_random.
  cbn [length Z.of_nat]. change (Z.of_nat 4) with 4. fold i. rewrite Hop.
  rewrite bind_random. cbn [entropy set_entropy].
  change (Z.of_nat 5) with 5. fold j. rewrite Hamount.
  rewrite move_score_moves;
    cbn [scores set_entropy]; fold old;
    try (apply int4_spec; destruct operation'; cbn [signed]; lia).
  reflexivity.
Qed.

Section Reply.
Context `{Operations} `{Helpers}.
Variable symbolName : string -> string.

(** X22. [handlePlusRandom] writes before it replies: with draws in
    [0, 1) the score of the item has moved by one to five points when the
    message is composed. When the name [getOperationName] gives for the
    operation is none of plus, minus, self and equal, the call is rejected
    with "Invalid operation", nothing is sent, and the score stays moved;
    when it is one of them, one message leaves for the channel. *)
Theorem handlePlusRandom_writes_before_replying item operation channel w :
  let old := default 0 (scores w !! citext item) in
  let r := IndexJs.handlePlusRandom symbolName item operation channel w in
  unit_draw (entropy w 0%nat) -> unit_draw (entropy w 1%nat) ->
  unit_draw (entropy w 2%nat) ->
  int4 (old - 5) = true -> int4 (old + 5) = true ->
  exists d,
    1 <= Z.abs d <= 5
    /\ scores (snd r) = <[citext item := old + d]> (scores w)
    /\ (~ In (symbolName operation) [PLUS; MINUS; SELF; EQUAL] ->
        fst r = Thrown (JsError ("Invalid operation: " +:+ symbolName operation))
        /\ outbox (snd r) = outbox w)
    /\ (In (symbolName operation) [PLUS; MINUS; SELF; EQUAL] ->
        fst r = Returned tt
        /\ exists message,
             outbox (snd r) = (outbox w ++ [sendMessage message channel])%list).
Proof.
  intros old r Hr1 Hr2 Hr3 Hlow Hhigh.
  destruct (randomScore_run item operation w Hr1 Hr2 Hlow Hhigh) as (d & Hd & Hrun).
  fold old in Hrun. exists d. split; [exact Hd|].
  set (w1 := set_scores _ _) in Hrun.
  assert (E : r = bind (Messages.getRandomMessage (symbolName operation) item
                          (Some (old + d)) None)
                    (fun message => Events.slack (sendMessage message channel)) w1).
  { unfold r, IndexJs.handlePlusRandom. now rewrite (bind_returned _ _ _ _ _ Hrun). }
  destruct (in_dec string_dec (symbolName operation) [PLUS; MINUS; SELF; EQUAL])
    as [Hkind | Hnot].
  - destruct (getRandomMessage_composes (symbolName operation) item
                (Some (old + d)) None w1 Hkind Hr3)
      as (format & sets & s & _ & _ & _ & Hmessage).
    rewrite (bind_returned _ _ _ _ _ Hmessage) in E. rewrite E.
    unfold Events.slack. cbn [modify fst snd scores set_outbox set_entropy outbox].
    split; [reflexivity|]. split; [tauto|].
    intros _. split; [reflexivity|]. eexists. reflexivity.
  - rewrite (bind_thrown _ _ _ _ _
               (getRandomMessage_invalid _ item (Some (old + d)) None w1 Hnot)) in E.
    rewrite E. cbn [fst snd]. split; [reflexivity|]. split; [|tauto].
    intros _. split; reflexivity.
Qed.

End Reply.

Lemma handlePlusRandom_writes_before_replying_witness :
  let w := fresh_world None 1000 (1 # 3) in
  let r := @IndexJs.handlePlusRandom example_registry (example_helpers [])
             (fun _ => "random") "Sriracha" "#" "C2147483705" w in
  exists d,
    1 <= Z.abs d <= 5
    /\ scores (snd r) = <[citext "Sriracha" := 0 + d]> (scores w)
    /\ fst r = Thrown (JsError "Invalid operation: random")
    /\ outbox (snd r) = outbox w.
Proof.
  destruct (@handlePlusRandom_writes_before_replying example_registry
              (example_helpers []) (fun _ => "random") "Sriracha" "#" "C2147483705"
              (fresh_world None 1000 (1 # 3)))
    as (d & Hd & Hscores & Hthrown & _).
  - split; [discriminate | reflexivity].
  - split; [discriminate | reflexivity].
  - split; [discriminate | reflexivity].
  - reflexivity.
  - reflexivity.
  - exists d. split; [exact Hd|]. split; [exact Hscores|].
    apply Hthrown. cbn [In]. intros [E | [E | [E | [E | []]]]]; discriminate E.
Defined.
